(** * Race-car telemetry pipeline: reshape, derive, first-crossing times

    A shallow embedding of [main.py]: [load_and_process_data],
    [find_first_conditions] and the [__main__] block, together with the
    part of pandas and numpy they call.

    Conventions.
    - A cell of a pivoted table is [option Q]: [None] is NaN (missing),
      [Some q] a finite number.  Arithmetic is exact; IEEE rounding and
      the infinities are not represented.
    - A channel identifier is an integer ([Z]); on an integer [int(col)]
      is the identity.
    - The files are those of the data model: a header row, and in every
      data row a time, a channel identifier that is an integer, and a
      value field that is a number or empty.  A file without a header
      row, with an empty time or channel field or with a channel
      identifier that is a fraction is outside the model, and no
      statement below speaks of it.  A file with a value field that is
      text is read into a frame of its own ([txt.CsvFrame]), on which
      only the loader is modelled.
    - The type of the time keys is a parameter: [Q] when [read_csv] reads
      the time column as numbers, [string] when some field of the column
      is not a number and [read_csv] keeps the whole column as text.  The
      program touches the keys only through their order.
    - An exception is a value of [exn]; a computation that may raise
      returns a [result]. *)

From Stdlib Require Import List String Ascii Bool Arith ZArith QArith Lqa Lia.
From Stdlib Require Import DecimalString DecimalZ Sorted.
Import ListNotations.
Local Open Scope list_scope.

Set Implicit Arguments.

(** ** Exceptions *)

Inductive exn : Type :=
| KeyError (key : string)
| ValueError (msg : string)
| FileNotFoundError (path : string)
| TypeError (msg : string).

Inductive result (A : Type) : Type :=
| Ok (a : A)
| Raise (e : exn).

Arguments Ok {A} a.
Arguments Raise {A} e.

Definition bind {A B : Type} (r : result A) (k : A -> result B) : result B :=
  match r with
  | Ok a => k a
  | Raise e => Raise e
  end.

Notation "x <- r ;; k" := (bind r (fun x => k))
  (at level 61, r at next level, right associativity).

(** ** Keys of an index *)

Class IndexKey (T : Type) := key_cmp : T -> T -> comparison.

#[export] Instance Q_key : IndexKey Q := Qcompare.
#[export] Instance Z_key : IndexKey Z := Z.compare.
#[export] Instance string_key : IndexKey string := String.compare.

Definition key_eqb {T : Type} `{IndexKey T} (x y : T) : bool :=
  match key_cmp x y with
  | Eq => true
  | _ => false
  end.

(** The laws the proofs use; they hold of the three instances. *)
Class KeyLaws (T : Type) `{IndexKey T} : Prop := {
  cmp_refl : forall x : T, key_cmp x x = Eq;
  cmp_antisym : forall x y : T, key_cmp y x = CompOpp (key_cmp x y);
  cmp_eq_compat : forall x y z : T, key_cmp x y = Eq -> key_cmp x z = key_cmp y z;
  cmp_lt_trans : forall x y z : T,
      key_cmp x y = Lt -> key_cmp y z = Lt -> key_cmp x z = Lt
}.

Arguments KeyLaws T {_}.

Definition key_lt {T : Type} `{IndexKey T} (x y : T) : Prop := key_cmp x y = Lt.

(** ** numpy *)

Module np.

(** [np.interp(x, xp, fp)] at an integer abscissa, over the sample points
    [p0 :: rest] (abscissa, ordinate) in ascending order of abscissa:
    the ordinate of the first point at or left of it, the ordinate of the
    last point at or right of it, and in between
    [slope * (x - xp[j]) + fp[j]] on the segment that holds [x]. *)
Fixpoint interp (p0 : Z * Q) (rest : list (Z * Q)) (x : Z) : Q :=
  let '(x0, y0) := p0 in
  if (x <=? x0)%Z then y0
  else match rest with
       | [] => y0
       | (x1, y1) :: rest' =>
           if (x <? x1)%Z
           then ((y1 - y0) / inject_Z (x1 - x0)) * inject_Z (x - x0) + y0
           else interp (x1, y1) rest' x
       end.

End np.

(** ** pandas *)

Module pd.

(** A column of a pivoted table. *)
Definition Series : Type := list (option Q).

(** What [read_csv] returns, as far as the program looks at it: the
    columns named [time], [channel] and [value], each [None] when the
    header row has no such name.  The columns of one frame have one
    length. *)
Record CsvFrame (T : Type) : Type := {
  col_time : option (list T);
  col_channel : option (list Z);
  col_value : option (list (option Q))
}.

(** A table: the row keys and the labelled columns, in order. *)
Record DataFrame (T L : Type) : Type := {
  index : list T;
  data : list (L * Series)
}.

Definition columns {T L : Type} (df : DataFrame T L) : list L :=
  map fst (data df).

(** [df[name]] on the frame read from the file. *)
Definition csv_getitem {A : Type} (name : string) (col : option (list A))
  : result (list A) :=
  match col with
  | Some l => Ok l
  | None => Raise (KeyError name)
  end.

(** One record per data row. *)
Definition records {T : Type} (ts : list T) (cs : list Z) (vs : list (option Q))
  : list (T * Z * option Q) :=
  combine (combine ts cs) vs.

Section Keys.
Context {T : Type} `{IndexKey T}.

Fixpoint insert_key (x : T) (l : list T) : list T :=
  match l with
  | [] => [x]
  | y :: l' =>
      match key_cmp x y with
      | Lt => x :: l
      | Eq => l
      | Gt => y :: insert_key x l'
      end
  end.

(** The distinct keys of a list, ascending: a level of the index. *)
Definition sorted_unique (l : list T) : list T :=
  fold_right insert_key [] l.

(** [Index.min()]: NaN ([None]) on the empty index. *)
Fixpoint index_min (l : list T) : option T :=
  match l with
  | [] => None
  | x :: l' =>
      match index_min l' with
      | None => Some x
      | Some m => Some (match key_cmp x m with Gt => m | _ => x end)
      end
  end.
End Keys.

Section Pivot.
Context {T : Type} `{IndexKey T}.

Definition same_entry (t : T) (c : Z) (r : T * Z * option Q) : bool :=
  let '(t', c', _) := r in key_eqb t' t && (c' =? c)%Z.

(** Two rows with one (time, channel) pair. *)
Fixpoint has_duplicates (recs : list (T * Z * option Q)) : bool :=
  match recs with
  | [] => false
  | (t, c, _) :: rest => existsb (same_entry t c) rest || has_duplicates rest
  end.

(** The value recorded for a pair, NaN when there is no such row. *)
Definition entry (recs : list (T * Z * option Q)) (t : T) (c : Z) : option Q :=
  match find (same_entry t c) recs with
  | Some (_, _, v) => v
  | None => None
  end.

Definition times (recs : list (T * Z * option Q)) : list T :=
  map (fun r => fst (fst r)) recs.

Definition channels (recs : list (T * Z * option Q)) : list Z :=
  map (fun r => snd (fst r)) recs.

(** [Series.unstack]: rows and columns are the distinct keys,
    ascending; a pair without a row is NaN. *)
Definition unstack (recs : list (T * Z * option Q)) : DataFrame T Z :=
  let idx := sorted_unique (times recs) in
  {| index := idx;
     data := map (fun c => (c, map (fun t => entry recs t c) idx))
                 (sorted_unique (channels recs)) |}.

(** [df.pivot(index='time', columns='channel', values='value')]: the
    three columns are looked up, then a repeated pair is refused.  The
    order of the three lookups and the key that the [KeyError] carries
    vary with the version of pandas; the statements below use only that
    a [KeyError] is raised when one of the three is absent. *)
Definition pivot (df : CsvFrame T) : result (DataFrame T Z) :=
  ts <- csv_getitem "time" (col_time df) ;;
  cs <- csv_getitem "channel" (col_channel df) ;;
  vs <- csv_getitem "value" (col_value df) ;;
  let recs := records ts cs vs in
  if has_duplicates recs
  then Raise (ValueError "Index contains duplicate entries, cannot reshape")
  else Ok (unstack recs).

(** The data rows of the file, none when a required column is absent. *)
Definition rows (df : CsvFrame T) : list (T * Z * option Q) :=
  match col_time df, col_channel df, col_value df with
  | Some ts, Some cs, Some vs => records ts cs vs
  | _, _, _ => []
  end.

(** The position of a key in an index. *)
Fixpoint position (t : T) (idx : list T) : option nat :=
  match idx with
  | [] => None
  | x :: idx' => if key_eqb x t then Some 0%nat else option_map S (position t idx')
  end.

(** [df.at[t, c]] on the pivoted table: [None] where the table has no
    such row or column, [Some None] for a NaN cell. *)
Definition at_ (df : DataFrame T Z) (t : T) (c : Z) : option (option Q) :=
  match find (fun ls : Z * Series => (fst ls =? c)%Z) (data df), position t (index df) with
  | Some (_, s), Some i => nth_error s i
  | _, _ => None
  end.
End Pivot.

(** *** Filling *)

(** [Series.ffill]: the last value seen replaces a NaN. *)
Fixpoint ffill_from (last : option Q) (s : Series) : Series :=
  match s with
  | [] => []
  | Some v :: s' => Some v :: ffill_from (Some v) s'
  | None :: s' => last :: ffill_from last s'
  end.

Definition ffill_1d (s : Series) : Series := ffill_from None s.

(** [Series.bfill]: the forward fill of the reversed column. *)
Definition bfill_1d (s : Series) : Series := rev (ffill_1d (rev s)).

(** The rows of a column with their positions [0, 1, ...]. *)
Fixpoint enumerate_from {A : Type} (i : Z) (l : list A) : list (Z * A) :=
  match l with
  | [] => []
  | a :: l' => (i, a) :: enumerate_from (i + 1)%Z l'
  end.

(** The positions and values of the rows that are not NaN. *)
Fixpoint valid_from (i : Z) (s : Series) : list (Z * Q) :=
  match s with
  | [] => []
  | Some v :: s' => (i, v) :: valid_from (i + 1)%Z s'
  | None :: s' => valid_from (i + 1)%Z s'
  end.

(** [Series.interpolate(method='linear')] with the defaults
    [limit=None], [limit_direction='forward'], [limit_area=None].
    With [method='linear'] the abscissae are the row positions
    [np.arange(len(index))], not the index; the NaN rows take
    [np.interp] of their position over the valid rows, and the NaN rows
    before the first valid row are set back to NaN.  A column without a
    valid row is returned as it is. *)
Definition interpolate_1d (s : Series) : Series :=
  match valid_from 0 s with
  | [] => s
  | (first, y0) :: rest =>
      map (fun iy : Z * option Q =>
             let '(i, y) := iy in
             match y with
             | Some _ => y
             | None => if (i <? first)%Z then None
                       else Some (np.interp (first, y0) rest i)
             end)
          (enumerate_from 0 s)
  end.

Definition map_columns {T L : Type} (f : Series -> Series) (df : DataFrame T L)
  : DataFrame T L :=
  {| index := index df;
     data := map (fun ls : L * Series => (fst ls, f (snd ls))) (data df) |}.

Definition interpolate {T L : Type} (df : DataFrame T L) := map_columns interpolate_1d df.
Definition ffill {T L : Type} (df : DataFrame T L) := map_columns ffill_1d df.
Definition bfill {T L : Type} (df : DataFrame T L) := map_columns bfill_1d df.

(** [df.head()]: the first five rows. *)
Definition head {T L : Type} (df : DataFrame T L) : DataFrame T L :=
  {| index := firstn 5 (index df);
     data := map (fun ls : L * Series => (fst ls, firstn 5 (snd ls))) (data df) |}.

(** [df.columns = [f(col) for col in df.columns]] *)
Definition rename_columns {T L M : Type} (f : L -> M) (df : DataFrame T L)
  : DataFrame T M :=
  {| index := index df;
     data := map (fun ls : L * Series => (f (fst ls), snd ls)) (data df) |}.

(** *** Columns by label *)

Section Labels.
Context {T : Type}.

Definition lookup (df : DataFrame T string) (label : string) : option Series :=
  option_map snd (find (fun ls : string * Series => String.eqb (fst ls) label) (data df)).

(** [df[label]] *)
Definition getitem (df : DataFrame T string) (label : string) : result Series :=
  match lookup df label with
  | Some s => Ok s
  | None => Raise (KeyError label)
  end.

Definition has_column (df : DataFrame T string) (label : string) : bool :=
  existsb (String.eqb label) (columns df).

Definition replace_column (label : string) (s : Series) (ls : string * Series)
  : string * Series :=
  if String.eqb (fst ls) label then (fst ls, s) else ls.

(** [df[label] = s]: the column of that label takes the new values
    where it stands; a new label is appended after the last column. *)
Definition setitem (df : DataFrame T string) (label : string) (s : Series)
  : DataFrame T string :=
  {| index := index df;
     data := if has_column df label
             then map (replace_column label s) (data df)
             else data df ++ [(label, s)] |}.

(** The cell of a column at a row position. *)
Definition cell (df : DataFrame T string) (label : string) (i : nat)
  : option (option Q) :=
  match lookup df label with
  | Some s => nth_error s i
  | None => None
  end.

(** Labels are distinct and every column has one cell per row. *)
Fixpoint distinct (l : list string) : bool :=
  match l with
  | [] => true
  | x :: l' => negb (existsb (String.eqb x) l') && distinct l'
  end.

Definition well_formed (df : DataFrame T string) : bool :=
  distinct (columns df)
  && forallb (fun ls : string * Series => Nat.eqb (List.length (snd ls)) (List.length (index df)))
             (data df).
End Labels.

(** *** Element-wise operations on columns of one table *)

(** [a - b]: NaN as soon as one side is NaN. *)
Definition sub_cell (a b : option Q) : option Q :=
  match a, b with
  | Some x, Some y => Some (x - y)
  | _, _ => None
  end.

Fixpoint zip_with {A B C : Type} (f : A -> B -> C) (l : list A) (m : list B) : list C :=
  match l, m with
  | a :: l', b :: m' => f a b :: zip_with f l' m'
  | _, _ => []
  end.

Definition sub (a b : Series) : Series := zip_with sub_cell a b.

(** [s < c]: false on NaN. *)
Definition lt_cell (c : Q) (a : option Q) : bool :=
  match a with
  | Some x => match x ?= c with Lt => true | _ => false end
  | None => false
  end.

Definition lt (s : Series) (c : Q) : list bool := map (lt_cell c) s.

(** [m1 & m2] *)
Definition and_ (m1 m2 : list bool) : list bool := zip_with andb m1 m2.

(** [df[mask].index]: the keys of the rows where the mask is true. *)
Fixpoint mask_index {T : Type} (idx : list T) (mask : list bool) : list T :=
  match idx, mask with
  | t :: idx', b :: mask' => if b then t :: mask_index idx' mask' else mask_index idx' mask'
  | _, _ => []
  end.

End pd.

(** ** The program *)

Local Open Scope string_scope.

(** [str(n)] of a Python integer: decimal digits, [-] before a negative
    one. *)
Definition str (n : Z) : string := NilZero.string_of_int (Z.to_int n).

(** [f'Channel_{int(col)}'] (line 29); [int] is the identity on an integer
    identifier. *)
Definition channel_name (col : Z) : string := "Channel_" ++ str col.

Section Program.
Context {T : Type} `{IndexKey T}.

(** The files of the machine: what [pd.read_csv(path, sep='\t')] returns
    for a path, [None] where there is no such file.  Every file has a
    header row. *)
Definition FileSystem : Type := string -> option (pd.CsvFrame T).

Definition read_csv (fs : FileSystem) (file_path : string) : result (pd.CsvFrame T) :=
  match fs file_path with
  | Some df => Ok df
  | None => Raise (FileNotFoundError file_path)
  end.

(** Lines 20-26. *)
Definition fill_gaps (fill_missing : bool) (fill_method : string)
           (df_pivot : pd.DataFrame T Z) : pd.DataFrame T Z :=
  if fill_missing then
    if fill_method =? "interpolate" then pd.interpolate df_pivot
    else if fill_method =? "ffill" then pd.ffill df_pivot
    else if fill_method =? "bfill" then pd.bfill df_pivot
    else df_pivot
  else df_pivot.

(** Lines 14-29: read, pivot, fill, rename. *)
Definition reshape (fs : FileSystem) (file_path : string)
           (fill_missing : bool) (fill_method : string)
  : result (pd.DataFrame T string) :=
  df <- read_csv fs file_path ;;
  df_pivot <- pd.pivot df ;;
  Ok (pd.rename_columns channel_name (fill_gaps fill_missing fill_method df_pivot)).

(** Line 32: [df_pivot['Channel_7'] = df_pivot['Channel_5'] - df_pivot['Channel_4']]. *)
Definition derive (df_pivot : pd.DataFrame T string) : result (pd.DataFrame T string) :=
  c5 <- pd.getitem df_pivot "Channel_5" ;;
  c4 <- pd.getitem df_pivot "Channel_4" ;;
  Ok (pd.setitem df_pivot "Channel_7" (pd.sub c5 c4)).

Definition load_and_process_data (fs : FileSystem) (file_path : string)
           (fill_missing : bool) (fill_method : string)
  : result (pd.DataFrame T string) :=
  df_pivot <- reshape fs file_path fill_missing fill_method ;;
  derive df_pivot.

(** The three first times; [None] is the NaN that [min] returns on an
    empty index. *)
Definition find_first_conditions (df : pd.DataFrame T string)
  : result (option T * option T * option T) :=
  c2 <- pd.getitem df "Channel_2" ;;
  let condition_1 := pd.lt c2 (-1 # 2) in
  c7 <- pd.getitem df "Channel_7" ;;
  let condition_2 := pd.lt c7 0 in
  let both_conditions := pd.and_ condition_1 condition_2 in
  let first_condition_1 := pd.index_min (pd.mask_index (pd.index df) condition_1) in
  let first_condition_2 := pd.index_min (pd.mask_index (pd.index df) condition_2) in
  let first_both_conditions := pd.index_min (pd.mask_index (pd.index df) both_conditions) in
  Ok (first_condition_1, first_condition_2, first_both_conditions).

(** *** The command line *)

(** What [parser.parse_args()] returns: [-i], [-f], [-m]. *)
Record Args : Type := {
  input : option string;
  fill : bool;
  method : option string
}.

(** [if x:] on an optional string: neither [None] nor empty. *)
Definition truthy (x : option string) : bool :=
  match x with
  | Some s => negb (s =? "")
  | None => false
  end.

Definition get (x : option string) : string :=
  match x with
  | Some s => s
  | None => ""
  end.

Definition fill_methods : list string := ["interpolate"; "ffill"; "bfill"].

(** Lines 122-141: the file path, the fill switch and the fill method
    the run works with, or the [ValueError] of line 140. *)
Definition settings (args : Args) : result (string * bool * string) :=
  let file_path := if truthy (input args) then get (input args) else "" in
  let fill_missing := if fill args then true else false in
  if truthy (method args) then
    if negb (existsb (String.eqb (get (method args))) fill_methods)
    then Raise (ValueError "Invalid fill method. Please choose from interpolate, ffill, bfill.")
    else Ok (file_path, fill_missing, get (method args))
  else Ok (file_path, fill_missing, "interpolate").

(** What a run does, in order.  [Load] is the call of
    [load_and_process_data], the only place where the input file is
    read; [Plot] is the call of [plot_conditions], whose drawing is not
    modelled. *)
Inductive event : Type :=
| Load (file_path : string) (fill_missing : bool) (fill_method : string)
| PrintHead (df : pd.DataFrame T string)
| PrintConditions (first : option T * option T * option T)
| Plot (df : pd.DataFrame T string) (title : string)
       (fill_missing : bool) (fill_method : string).

(** Lines 120-157: the events of the run, and the exception that ends it
    or [Ok tt] when it reaches the call of [plot_conditions]. *)
Definition main (args : Args) (fs : FileSystem) : list event * result unit :=
  match settings args with
  | Raise e => ([], Raise e)
  | Ok (file_path, fill_missing, fill_method) =>
      let call := Load file_path fill_missing fill_method in
      match load_and_process_data fs file_path fill_missing fill_method with
      | Raise e => ([call], Raise e)
      | Ok practice_df =>
          match find_first_conditions practice_df with
          | Raise e => ([call; PrintHead (pd.head practice_df)], Raise e)
          | Ok first_conditions_practice =>
              ([call; PrintHead (pd.head practice_df);
                PrintConditions first_conditions_practice;
                Plot practice_df file_path fill_missing fill_method],
               Ok tt)
          end
      end
  end.
End Program.

(** ** The loader on a value column of text *)

(** When a field of the [value] column is no number, [read_csv] keeps the
    whole column as text: a cell holds the text of its field, or NaN
    where the field is empty.  This module has the part of pandas that
    [load_and_process_data] calls on such a column, and the lines of the
    function on it, under the names of the numeric case. *)
Module txt.

Definition Series : Type := list (option string).

Record CsvFrame (T : Type) : Type := {
  col_time : option (list T);
  col_channel : option (list Z);
  col_value : option (list (option string))
}.

Record DataFrame (T L : Type) : Type := {
  index : list T;
  data : list (L * Series)
}.

Definition records {T : Type} (ts : list T) (cs : list Z) (vs : list (option string))
  : list (T * Z * option string) :=
  combine (combine ts cs) vs.

Section Pivot.
Context {T : Type} `{IndexKey T}.

Definition same_entry (t : T) (c : Z) (r : T * Z * option string) : bool :=
  let '(t', c', _) := r in key_eqb t' t && (c' =? c)%Z.

Fixpoint has_duplicates (recs : list (T * Z * option string)) : bool :=
  match recs with
  | [] => false
  | (t, c, _) :: rest => existsb (same_entry t c) rest || has_duplicates rest
  end.

Definition entry (recs : list (T * Z * option string)) (t : T) (c : Z) : option string :=
  match find (same_entry t c) recs with
  | Some (_, _, v) => v
  | None => None
  end.

Definition times (recs : list (T * Z * option string)) : list T :=
  map (fun r => fst (fst r)) recs.

Definition channels (recs : list (T * Z * option string)) : list Z :=
  map (fun r => snd (fst r)) recs.

Definition unstack (recs : list (T * Z * option string)) : DataFrame T Z :=
  let idx := pd.sorted_unique (times recs) in
  {| index := idx;
     data := map (fun c => (c, map (fun t => entry recs t c) idx))
                 (pd.sorted_unique (channels recs)) |}.

(** [df.pivot(index='time', columns='channel', values='value')] *)
Definition pivot (df : CsvFrame T) : result (DataFrame T Z) :=
  ts <- pd.csv_getitem "time" (col_time df) ;;
  cs <- pd.csv_getitem "channel" (col_channel df) ;;
  vs <- pd.csv_getitem "value" (col_value df) ;;
  let recs := records ts cs vs in
  if has_duplicates recs
  then Raise (ValueError "Index contains duplicate entries, cannot reshape")
  else Ok (unstack recs).

(** The data rows of the file, none when a required column is absent. *)
Definition rows (df : CsvFrame T) : list (T * Z * option string) :=
  match col_time df, col_channel df, col_value df with
  | Some ts, Some cs, Some vs => records ts cs vs
  | _, _, _ => []
  end.
End Pivot.

(** [Series.ffill] and [Series.bfill] copy cells, texts as well as
    numbers. *)
Fixpoint ffill_from (last : option string) (s : Series) : Series :=
  match s with
  | [] => []
  | Some v :: s' => Some v :: ffill_from (Some v) s'
  | None :: s' => last :: ffill_from last s'
  end.

Definition ffill_1d (s : Series) : Series := ffill_from None s.

Definition bfill_1d (s : Series) : Series := rev (ffill_1d (rev s)).

Definition map_columns {T L : Type} (f : Series -> Series) (df : DataFrame T L)
  : DataFrame T L :=
  {| index := index df;
     data := map (fun ls : L * Series => (fst ls, f (snd ls))) (data df) |}.

(** [DataFrame.interpolate(method='linear')] on a table whose columns
    all hold text: refused.  (The class of the exception varies with the
    version of pandas.) *)
Definition interpolate {T L : Type} (df : DataFrame T L) : result (DataFrame T L) :=
  Raise (TypeError "Cannot interpolate with all object-dtype columns in the DataFrame. Try setting at least one column to a numeric dtype.").

Definition ffill {T L : Type} (df : DataFrame T L) := map_columns ffill_1d df.
Definition bfill {T L : Type} (df : DataFrame T L) := map_columns bfill_1d df.

Definition rename_columns {T L M : Type} (f : L -> M) (df : DataFrame T L)
  : DataFrame T M :=
  {| index := index df;
     data := map (fun ls : L * Series => (f (fst ls), snd ls)) (data df) |}.

Section Labels.
Context {T : Type}.

Definition lookup (df : DataFrame T string) (label : string) : option Series :=
  option_map snd (find (fun ls : string * Series => String.eqb (fst ls) label) (data df)).

Definition getitem (df : DataFrame T string) (label : string) : result Series :=
  match lookup df label with
  | Some s => Ok s
  | None => Raise (KeyError label)
  end.

Definition has_column (df : DataFrame T string) (label : string) : bool :=
  existsb (String.eqb label) (map fst (data df)).

Definition replace_column (label : string) (s : Series) (ls : string * Series)
  : string * Series :=
  if String.eqb (fst ls) label then (fst ls, s) else ls.

Definition setitem (df : DataFrame T string) (label : string) (s : Series)
  : DataFrame T string :=
  {| index := index df;
     data := if has_column df label
             then map (replace_column label s) (data df)
             else (data df ++ [(label, s)])%list |}.
End Labels.

Definition both_known (a b : option string) : bool :=
  match a, b with
  | Some _, Some _ => true
  | _, _ => false
  end.

(** [a - b] on two columns of text.  The subtraction is made on the rows
    where both sides have a value, and Python has no [-] between two
    texts; where no row has both, every row is NaN. *)
Definition sub (a b : Series) : result Series :=
  if existsb (fun x => x) (pd.zip_with both_known a b)
  then Raise (TypeError "unsupported operand type(s) for -: 'str' and 'str'")
  else Ok (pd.zip_with (fun _ _ => None) a b).

Section Program.
Context {T : Type} `{IndexKey T}.

Definition FileSystem : Type := string -> option (CsvFrame T).

Definition read_csv (fs : FileSystem) (file_path : string) : result (CsvFrame T) :=
  match fs file_path with
  | Some df => Ok df
  | None => Raise (FileNotFoundError file_path)
  end.

(** Lines 20-26. *)
Definition fill_gaps (fill_missing : bool) (fill_method : string)
           (df_pivot : DataFrame T Z) : result (DataFrame T Z) :=
  if fill_missing then
    if fill_method =? "interpolate" then interpolate df_pivot
    else if fill_method =? "ffill" then Ok (ffill df_pivot)
    else if fill_method =? "bfill" then Ok (bfill df_pivot)
    else Ok df_pivot
  else Ok df_pivot.

(** Lines 14-29: read, pivot, fill, rename. *)
Definition reshape (fs : FileSystem) (file_path : string)
           (fill_missing : bool) (fill_method : string)
  : result (DataFrame T string) :=
  df <- read_csv fs file_path ;;
  df_pivot <- pivot df ;;
  df_pivot <- fill_gaps fill_missing fill_method df_pivot ;;
  Ok (rename_columns channel_name df_pivot).

(** Line 32. *)
Definition derive (df_pivot : DataFrame T string) : result (DataFrame T string) :=
  c5 <- getitem df_pivot "Channel_5" ;;
  c4 <- getitem df_pivot "Channel_4" ;;
  c7 <- sub c5 c4 ;;
  Ok (setitem df_pivot "Channel_7" c7).

Definition load_and_process_data (fs : FileSystem) (file_path : string)
           (fill_missing : bool) (fill_method : string)
  : result (DataFrame T string) :=
  df_pivot <- reshape fs file_path fill_missing fill_method ;;
  derive df_pivot.
End Program.

End txt.

(** ** The plot *)

(** [c.lower()] on an ASCII character; a character outside [A-Z] is
    kept. *)
Definition lower_ascii (c : ascii) : ascii :=
  let n := nat_of_ascii c in
  if ((65 <=? n) && (n <=? 90))%nat then ascii_of_nat (n + 32) else c.

(** [title.lower()], for a title in ASCII. *)
Fixpoint lower (s : string) : string :=
  match s with
  | EmptyString => EmptyString
  | String c s' => String (lower_ascii c) (lower s')
  end.

Module plt.

(** The calls that [plot_conditions] makes to matplotlib, with their
    arguments.  The string that [text] draws is [str(x)]. *)
Inductive call : Type :=
| subplots (figsize : Z * Z)
| plot (x : list Q) (y : list Q) (label color : string) (alpha : Q) (marker : string)
| fill_between (x : list Q) (y1 : list Q) (y2 : Q) (where_ : list bool)
               (color : string) (alpha : Q) (label : string) (interpolate : bool)
| axhline (y : Q) (color linestyle : string) (alpha : Q) (label : string)
| axvline (x : option Q) (color linestyle : string) (alpha : Q) (label : string)
| text (x y : Q) (color : string)
| set_title (label : string)
| set_xlabel (label : string)
| set_ylabel (label : string)
| legend
| savefig (fname bbox_inches : string).

End plt.

(** The rows of a column that are not NaN, each with its key. *)
Fixpoint present {T : Type} (idx : list T) (s : pd.Series) : list (T * Q) :=
  match idx, s with
  | t :: idx', Some v :: s' => (t, v) :: present idx' s'
  | _ :: idx', None :: s' => present idx' s'
  | _, _ => []
  end.

(** [df.dropna(subset=[label])[label]] *)
Definition dropna {T : Type} (df : pd.DataFrame T string) (label : string)
  : result (list (T * Q)) :=
  match pd.lookup df label with
  | Some s => Ok (present (pd.index df) s)
  | None => Raise (KeyError ("['" ++ label ++ "']"))
  end.

(** Lines 95-98. *)
Definition figure_title (fill_missing : bool) (fill_method title : string) : string :=
  if fill_missing
  then "Conditions Visualization - " ++ title ++ " - Fill Missing: " ++ fill_method
  else "Conditions Visualization - " ++ title ++ " - Fill Missing: " ++ "False".

(** Lines 104-107. *)
Definition figure_name (fill_missing : bool) (fill_method title : string) : string :=
  if fill_missing
  then "plots/" ++ lower title ++ "_" ++ fill_method ++ ".png"
  else "plots/" ++ lower title ++ "_no_fill.png".

(** Lines 58-107, on a table with numeric times: the calls made, in
    order, when no lookup fails.  [fill_missing] and [fill_method] are the
    module variables that the function reads. *)
Definition plot_conditions (fill_missing : bool) (fill_method : string)
           (df : pd.DataFrame Q string) (title : string) : result (list plt.call) :=
  df_2 <- dropna df "Channel_2" ;;
  df_7 <- dropna df "Channel_7" ;;
  let condition_1 := pd.lt (map (fun tv => Some (snd tv)) df_2) (-1 # 2) in
  let condition_2 := pd.lt (map (fun tv => Some (snd tv)) df_7) 0 in
  first <- find_first_conditions df ;;
  let first_conditions := snd first in
  Ok ([plt.subplots (16, 8)%Z;
       plt.plot (map fst df_2) (map snd df_2) "Channel_2" "blue" (7 # 10) "o";
       plt.plot (map fst df_7) (map snd df_7) "Channel_7" "red" (7 # 10) "o"]
      ++ (if fill_missing
          then [plt.fill_between (map fst df_2) (map snd df_2) (-1 # 2) condition_1
                                 "blue" (3 # 10) "Channel_2 < -0.5" true;
                plt.fill_between (map fst df_7) (map snd df_7) 0 condition_2
                                 "red" (3 # 10) "Channel_7 < 0" true]
          else [])
      ++ [plt.axhline (-1 # 2) "blue" "--" (1 # 2) "Channel_2 Threshold";
          plt.axhline 0 "red" "--" (1 # 2) "Channel_7 Threshold";
          plt.axvline first_conditions "green" "--" (1 # 2) "First Both Conditions Met"]
      ++ match first_conditions with
         | Some t => [plt.text t 0 "green"]
         | None => []
         end
      ++ [plt.set_title (figure_title fill_missing fill_method title);
          plt.set_xlabel "Time (s)";
          plt.set_ylabel "Channel Value";
          plt.legend;
          plt.savefig (figure_name fill_missing fill_method title) "tight"])%list.

(** ** Vocabulary of the statements *)

(** Row [i] of the table has a value in column [label], and it is below
    the threshold [c]. *)
Definition below {T : Type} (df : pd.DataFrame T string) (label : string) (c : Q) (i : nat)
  : Prop :=
  exists v, pd.cell df label i = Some (Some v) /\ (v < c)%Q.

(** [r] is the least key of the rows that satisfy [P], or NaN when no row
    does. *)
Definition first_time (idx : list Q) (P : nat -> Prop) (r : option Q) : Prop :=
  match r with
  | Some t => (exists i, nth_error idx i = Some t /\ P i)
              /\ (forall i t', nth_error idx i = Some t' -> P i -> (t <= t')%Q)
  | None => forall i t', nth_error idx i = Some t' -> ~ P i
  end.

(** The value at abscissa [x] of the line through [(x0, y0)] and
    [(x1, y1)]. *)
Definition linear (x0 y0 x1 y1 x : Q) : Q :=
  (y0 + (y1 - y0) * ((x - x0) / (x1 - x0)))%Q.

(** The row position [i] as a rational abscissa. *)
Definition row (i : nat) : Q := inject_Z (Z.of_nat i).

Definition lt_fst (p q : Z * Q) : Prop := (fst p < fst q)%Z.

(** The fill of one column that a method name stands for. *)
Definition method_fill (fill_method : string) : pd.Series -> pd.Series :=
  if fill_method =? "interpolate" then pd.interpolate_1d
  else if fill_method =? "ffill" then pd.ffill_1d
  else pd.bfill_1d.

(** The path a run reads: the [-i] argument, or the empty path. *)
Definition path_of (args : Args) : string := get (input args).

Definition invalid_fill_method : exn :=
  ValueError "Invalid fill method. Please choose from interpolate, ffill, bfill.".

(** ** The scenario of the specification *)

Definition scenario : pd.CsvFrame Q :=
  {| pd.col_time := Some [0; 0; 0; 1; 1; 1]%Q;
     pd.col_channel := Some [2; 4; 5; 2; 4; 5]%Z;
     pd.col_value := Some [Some (-1 # 5); Some 1; Some (1 # 2);
                           Some (-3 # 5); Some 1; Some (1 # 5)]%Q |}.

Definition one_file {T : Type} (name : string) (df : pd.CsvFrame T)
  : string -> option (pd.CsvFrame T) :=
  fun path => if path =? name then Some df else None.

Definition one_text_file {T : Type} (name : string) (df : txt.CsvFrame T)
  : string -> option (txt.CsvFrame T) :=
  fun path => if path =? name then Some df else None.

(** ** Sample files and command lines *)

(** The pair (time 0, channel 2) twice. *)
Definition duplicated : pd.CsvFrame Q :=
  {| pd.col_time := Some [0; 0; 0; 0]%Q;
     pd.col_channel := Some [4; 5; 2; 2]%Z;
     pd.col_value := Some [Some 1; Some (1 # 2); Some (-1 # 5); Some (-3 # 5)]%Q |}.

(** No row for channel 2 at the time 1, and an empty value field for
    channel 5 there. *)
Definition gappy : pd.CsvFrame Q :=
  {| pd.col_time := Some [0; 0; 0; 1; 1; 2; 2; 2]%Q;
     pd.col_channel := Some [2; 4; 5; 4; 5; 2; 4; 5]%Z;
     pd.col_value := Some [Some (-1 # 5); Some 1; Some (1 # 2);
                           Some 1; None;
                           Some (-3 # 5); Some 3; Some 2]%Q |}.

(** The reshaped table of [gappy], not filled. *)
Definition gappy_table : pd.DataFrame Q string :=
  {| pd.index := [0; 1; 2]%Q;
     pd.data := [("Channel_2", [Some (-1 # 5); None; Some (-3 # 5)]);
                 ("Channel_4", [Some 1; Some 1; Some 3]);
                 ("Channel_5", [Some (1 # 2); None; Some 2])]%Q |}.

(** The table of [gappy] after the derivation step. *)
Definition gappy_derived : pd.DataFrame Q string :=
  {| pd.index := [0; 1; 2]%Q;
     pd.data := [("Channel_2", [Some (-1 # 5); None; Some (-3 # 5)]);
                 ("Channel_4", [Some 1; Some 1; Some 3]);
                 ("Channel_5", [Some (1 # 2); None; Some 2]);
                 ("Channel_7", [Some (-1 # 2); None; Some (-1)])]%Q |}.

(** No channel 5. *)
Definition no_five : pd.CsvFrame Q :=
  {| pd.col_time := Some [0; 0; 1]%Q;
     pd.col_channel := Some [2; 4; 4]%Z;
     pd.col_value := Some [Some (-1 # 5); Some 1; Some 1]%Q |}.

(** The reshaped table of [no_five]. *)
Definition no_five_table : pd.DataFrame Q string :=
  {| pd.index := [0; 1]%Q;
     pd.data := [("Channel_2", [Some (-1 # 5); None]);
                 ("Channel_4", [Some 1; Some 1])]%Q |}.

(** Rows for channel 7. *)
Definition with_seven : pd.CsvFrame Q :=
  {| pd.col_time := Some [0; 0; 0; 1; 1; 1]%Q;
     pd.col_channel := Some [4; 5; 7; 4; 5; 7]%Z;
     pd.col_value := Some [Some 1; Some (1 # 2); Some 9; Some 1; Some (1 # 5); Some 8]%Q |}.


(** The channels 4 and 5 and no other. *)
Definition only_four_five : pd.CsvFrame Q :=
  {| pd.col_time := Some [0; 0; 1; 1]%Q;
     pd.col_channel := Some [4; 5; 4; 5]%Z;
     pd.col_value := Some [Some 1; Some (1 # 2); Some 1; Some (1 # 5)]%Q |}.

(** Times 0, 1, 3; channel 4 has no row at 1, channel 5 none at 3. *)
Definition uneven : pd.CsvFrame Q :=
  {| pd.col_time := Some [0; 0; 1; 3]%Q;
     pd.col_channel := Some [4; 5; 5; 4]%Z;
     pd.col_value := Some [Some 0; Some 1; Some 2; Some 3]%Q |}.

(** The pivot of [uneven]. *)
Definition uneven_pivot : pd.DataFrame Q Z :=
  {| pd.index := [0; 1; 3]%Q;
     pd.data := [(4%Z, [Some 0; None; Some 3]); (5%Z, [Some 1; Some 2; None])]%Q |}.

(** [-i practice.txt -m ffill] *)
Definition method_only : Args :=
  {| input := Some "practice.txt"; fill := false; method := Some "ffill" |}.

(** [-i practice.txt -f -m ''] *)
Definition empty_method : Args :=
  {| input := Some "practice.txt"; fill := true; method := Some "" |}.


(** A value column that [read_csv] keeps as text: the value field of the
    first data row is [abc]. *)
Definition text_values : txt.CsvFrame Q :=
  {| txt.col_time := Some [0; 0; 0; 1; 1]%Q;
     txt.col_channel := Some [2; 4; 5; 4; 5]%Z;
     txt.col_value := Some [Some "abc"; Some "1.0"; Some "0.5"; Some "1.0"; None] |}.


(** ** Vocabulary of the further statements *)

(** No missing cell of the column follows a known one. *)
Definition gap_free_after_known (s : pd.Series) : Prop :=
  forall i j v, (i < j)%nat -> nth_error s i = Some (Some v) -> nth_error s j <> Some None.

(** No missing cell of the column precedes a known one. *)
Definition gap_free_before_known (s : pd.Series) : Prop :=
  forall i j v, (i < j)%nat -> nth_error s j = Some (Some v) -> nth_error s i <> Some None.

(** The first time [r'] is there as soon as [r] is, and is not later. *)
Definition not_later (r' r : option Q) : Prop :=
  match r with
  | Some t => exists t', r' = Some t' /\ (t' <= t)%Q
  | None => True
  end.

(** [r] is the key of the first row, in row order, that satisfies [P], or
    NaN when no row does. *)
Definition first_row {T : Type} (idx : list T) (P : nat -> Prop) (r : option T) : Prop :=
  match r with
  | Some t => exists i, nth_error idx i = Some t /\ P i
                        /\ forall j, (j < i)%nat -> ~ P j
  | None => forall i t', nth_error idx i = Some t' -> ~ P i
  end.

(** The column [s'] has the rows of [s] and every known value of [s]. *)
Definition extends (s s' : pd.Series) : Prop :=
  List.length s' = List.length s
  /\ forall i v, nth_error s i = Some (Some v) -> nth_error s' i = Some (Some v).




(** The table of [gappy] loaded with backward fill. *)
Definition gappy_bfilled : pd.DataFrame Q string :=
  {| pd.index := [0; 1; 2]%Q;
     pd.data := [("Channel_2", [Some (-1 # 5); Some (-3 # 5); Some (-3 # 5)]);
                 ("Channel_4", [Some 1; Some 1; Some 3]);
                 ("Channel_5", [Some (1 # 2); Some 2; Some 2]);
                 ("Channel_7", [Some (-1 # 2); Some 1; Some (-1)])]%Q |}.

(** A shading call. *)
Definition is_shading (c : plt.call) : bool :=
  match c with
  | plt.fill_between _ _ _ _ _ _ _ _ => true
  | _ => false
  end.

(** Every character of the string is in ASCII; on such a string [lower]
    is Python's [str.lower]. *)
Fixpoint ascii_only (s : string) : bool :=
  match s with
  | EmptyString => true
  | String c s' => (nat_of_ascii c <? 128)%nat && ascii_only s'
  end.

(** The shading (lines 72-77) of the line drawn through the points [p],
    where it is below the level [c]. *)
Definition shading (p : list (Q * Q)) (c : Q) (color label : string) : plt.call :=
  plt.fill_between (map fst p) (map snd p) c
                   (pd.lt (map (fun tv => Some (snd tv)) p) c)
                   color (3 # 10) label true.

(** The calls of the plot of [gappy_derived] in a run without fill. *)
Definition gappy_calls : list plt.call :=
  [plt.subplots (16, 8)%Z;
   plt.plot [0; 2]%Q [-1 # 5; -3 # 5]%Q "Channel_2" "blue" (7 # 10) "o";
   plt.plot [0; 2]%Q [-1 # 2; -1]%Q "Channel_7" "red" (7 # 10) "o";
   plt.axhline (-1 # 2) "blue" "--" (1 # 2) "Channel_2 Threshold";
   plt.axhline 0 "red" "--" (1 # 2) "Channel_7 Threshold";
   plt.axvline (Some 2%Q) "green" "--" (1 # 2) "First Both Conditions Met";
   plt.text 2 0 "green";
   plt.set_title "Conditions Visualization - practice.txt - Fill Missing: False";
   plt.set_xlabel "Time (s)";
   plt.set_ylabel "Channel Value";
   plt.legend;
   plt.savefig "plots/practice.txt_no_fill.png" "tight"].

(** * Properties *)

(** ** The scenario of the specification, run *)

Example scenario_table :
  load_and_process_data (one_file "practice.txt" scenario) "practice.txt" false "interpolate"
  = Ok {| pd.index := [0; 1]%Q;
          pd.data := [("Channel_2", [Some (-1 # 5); Some (-3 # 5)]);
                      ("Channel_4", [Some 1; Some 1]);
                      ("Channel_5", [Some (1 # 2); Some (1 # 5)]);
                      ("Channel_7", [Some (-1 # 2); Some (-4 # 5)])]%Q |}.
Proof. reflexivity. Qed.

Example scenario_first_times :
  (df <- load_and_process_data (one_file "practice.txt" scenario) "practice.txt" false "interpolate" ;;
   find_first_conditions df)
  = Ok (Some 1, Some 0, Some 1)%Q.
Proof. reflexivity. Qed.

(** ** The order of the keys *)

#[export] Instance Z_laws : KeyLaws Z.
Proof.
  split; unfold key_cmp, Z_key; intros.
  - apply Z.compare_refl.
  - apply Z.compare_antisym.
  - apply Z.compare_eq in H. now subst.
  - rewrite Z.compare_lt_iff in *. lia.
Qed.

#[export] Instance Q_laws : KeyLaws Q.
Proof.
  split; unfold key_cmp, Q_key; intros.
  - apply Qeq_alt. reflexivity.
  - symmetry. apply Qcompare_antisym.
  - apply Qeq_alt in H. now rewrite H.
  - rewrite <- Qlt_alt in *. lra.
Qed.

Lemma Z_key_eq (x y : Z) : key_cmp x y = Eq <-> x = y.
Proof. apply Z.compare_eq_iff. Qed.

Section KeyFacts.
Context {T : Type} `{KeyLaws T}.

Lemma key_eqb_refl (x : T) : key_eqb x x = true.
Proof. unfold key_eqb. now rewrite cmp_refl. Qed.

Lemma key_eqb_sym (x y : T) : key_eqb x y = key_eqb y x.
Proof. unfold key_eqb. rewrite (cmp_antisym x y). now destruct (key_cmp x y). Qed.

Lemma key_eqb_trans (x y z : T) :
  key_eqb x y = true -> key_eqb y z = true -> key_eqb x z = true.
Proof.
  unfold key_eqb. intros Hxy Hyz.
  destruct (key_cmp x y) eqn:E; try discriminate.
  now rewrite (cmp_eq_compat _ _ z E).
Qed.

Lemma insert_key_In (x y : T) (l : list T) :
  In y (pd.insert_key x l) -> y = x \/ In y l.
Proof.
  induction l as [|a l IH]; simpl.
  - intuition.
  - destruct (key_cmp x a); simpl; intuition.
Qed.

Lemma insert_key_keeps (x y : T) (l : list T) :
  In y l -> In y (pd.insert_key x l).
Proof.
  induction l as [|a l IH]; simpl; [tauto|].
  destruct (key_cmp x a); simpl; intuition.
Qed.

Lemma insert_key_has (x : T) (l : list T) :
  exists y, In y (pd.insert_key x l) /\ key_cmp x y = Eq.
Proof.
  induction l as [|a l [y [Hy Exy]]]; simpl.
  - exists x. split; [now left | apply cmp_refl].
  - destruct (key_cmp x a) eqn:E.
    + exists a. split; [now left | exact E].
    + exists x. split; [now left | apply cmp_refl].
    + exists y. split; [now right | exact Exy].
Qed.

Lemma sorted_unique_In (y : T) (l : list T) :
  In y (pd.sorted_unique l) -> In y l.
Proof.
  induction l as [|a l IH]; simpl; [tauto|].
  intros Hy. apply insert_key_In in Hy. intuition.
Qed.

Lemma sorted_unique_has (x : T) (l : list T) :
  In x l -> exists y, In y (pd.sorted_unique l) /\ key_cmp x y = Eq.
Proof.
  induction l as [|a l IH]; simpl; [tauto|].
  intros [->|Hx].
  - apply insert_key_has.
  - destruct (IH Hx) as [y [Hy E]]. exists y. split; [|exact E].
    now apply insert_key_keeps.
Qed.

Lemma insert_key_sorted (x : T) (l : list T) :
  StronglySorted key_lt l -> StronglySorted key_lt (pd.insert_key x l).
Proof.
  induction 1 as [|a l Hs IH Ha]; simpl.
  - constructor; constructor.
  - destruct (key_cmp x a) eqn:E.
    + now constructor.
    + constructor; [now constructor|].
      constructor; [exact E|].
      eapply Forall_impl; [|exact Ha].
      intros z Hz. eapply cmp_lt_trans; eassumption.
    + constructor; [exact IH|].
      apply Forall_forall. intros z Hz.
      apply insert_key_In in Hz. destruct Hz as [->|Hz].
      * unfold key_lt. rewrite (cmp_antisym x a), E. reflexivity.
      * rewrite Forall_forall in Ha. now apply Ha.
Qed.

Lemma sorted_unique_sorted (l : list T) :
  StronglySorted key_lt (pd.sorted_unique l).
Proof.
  induction l as [|a l IH]; simpl.
  - constructor.
  - now apply insert_key_sorted.
Qed.

(** In an ascending list the keys are pairwise different. *)
Lemma sorted_distinct (l : list T) :
  StronglySorted key_lt l ->
  forall i j x y, nth_error l i = Some x -> nth_error l j = Some y ->
                  key_eqb x y = true -> i = j.
Proof.
  induction 1 as [|a l Hs IH Ha]; intros i j x y Hi Hj E.
  - now destruct i.
  - rewrite Forall_forall in Ha.
    destruct i as [|i], j as [|j]; simpl in *.
    + reflexivity.
    + injection Hi as <-. apply nth_error_In, Ha in Hj.
      unfold key_lt in Hj. unfold key_eqb in E. now rewrite Hj in E.
    + injection Hj as <-. apply nth_error_In, Ha in Hi.
      unfold key_lt in Hi. rewrite key_eqb_sym in E.
      unfold key_eqb in E. now rewrite Hi in E.
    + f_equal. eapply IH; eassumption.
Qed.
End KeyFacts.

(** ** Column names *)

Lemma to_int_not_nil (n : Z) : Z.to_int n <> Decimal.Pos Decimal.Nil /\ Z.to_int n <> Decimal.Neg Decimal.Nil.
Proof.
  destruct n as [|p|p]; simpl; split; try discriminate;
    intros E; injection E as E; now apply DecimalPos.Unsigned.to_uint_nonnil in E.
Qed.

Lemma str_inj (n m : Z) : str n = str m -> n = m.
Proof.
  unfold str. intros E.
  apply (f_equal NilZero.int_of_string) in E.
  destruct (to_int_not_nil n) as [Hn1 Hn2], (to_int_not_nil m) as [Hm1 Hm2].
  rewrite !NilZero.isi in E by assumption.
  injection E as E.
  rewrite <- (DecimalZ.of_to n), <- (DecimalZ.of_to m). now rewrite E.
Qed.

Lemma channel_name_inj (c1 c2 : Z) : channel_name c1 = channel_name c2 -> c1 = c2.
Proof.
  unfold channel_name. simpl. intros E. injection E as E. now apply str_inj.
Qed.

Lemma ascending_NoDup (l : list Z) : StronglySorted key_lt l -> NoDup l.
Proof.
  induction 1 as [|a l Hs IH Ha]; constructor; [|exact IH].
  intros Hin. rewrite Forall_forall in Ha. apply Ha in Hin.
  unfold key_lt in Hin. now rewrite cmp_refl in Hin.
Qed.

Lemma NoDup_map_inj {A B : Type} (f : A -> B) (l : list A) :
  (forall x y, f x = f y -> x = y) -> NoDup l -> NoDup (map f l).
Proof.
  intros Hf. induction 1 as [|a l Ha Hl IH]; simpl; constructor; [|exact IH].
  rewrite in_map_iff. intros [x [E Hx]]. apply Hf in E. now subst.
Qed.

Section Columns.
Context {T : Type} `{IndexKey T}.

Lemma columns_map_columns {L : Type} (f : pd.Series -> pd.Series) (df : pd.DataFrame T L) :
  pd.columns (pd.map_columns f df) = pd.columns df.
Proof. unfold pd.columns, pd.map_columns. simpl. now rewrite map_map. Qed.

Lemma columns_fill_gaps (b : bool) (m : string) (df : pd.DataFrame T Z) :
  pd.columns (fill_gaps b m df) = pd.columns df.
Proof.
  unfold fill_gaps, pd.interpolate, pd.ffill, pd.bfill.
  destruct b; [|reflexivity].
  repeat match goal with |- context [if ?c then _ else _] => destruct c end;
    now rewrite ?columns_map_columns.
Qed.

Lemma index_fill_gaps (b : bool) (m : string) (df : pd.DataFrame T Z) :
  pd.index (fill_gaps b m df) = pd.index df.
Proof.
  unfold fill_gaps, pd.interpolate, pd.ffill, pd.bfill.
  destruct b; [|reflexivity].
  repeat match goal with |- context [if ?c then _ else _] => destruct c end;
    reflexivity.
Qed.

Lemma columns_rename {L M : Type} (f : L -> M) (df : pd.DataFrame T L) :
  pd.columns (pd.rename_columns f df) = map f (pd.columns df).
Proof. unfold pd.columns, pd.rename_columns. simpl. now rewrite !map_map. Qed.

Lemma columns_unstack (recs : list (T * Z * option Q)) :
  pd.columns (pd.unstack recs) = pd.sorted_unique (pd.channels recs).
Proof.
  unfold pd.columns, pd.unstack. simpl. rewrite map_map. simpl. apply map_id.
Qed.

(** What a successful pivot returns. *)
Lemma pivot_Ok (csv : pd.CsvFrame T) (df : pd.DataFrame T Z) :
  pd.pivot csv = Ok df ->
  pd.has_duplicates (pd.rows csv) = false /\ df = pd.unstack (pd.rows csv) /\
  exists ts cs vs, pd.col_time csv = Some ts /\ pd.col_channel csv = Some cs
                   /\ pd.col_value csv = Some vs.
Proof.
  unfold pd.pivot, pd.rows.
  destruct (pd.col_time csv) as [ts|]; [|discriminate].
  destruct (pd.col_channel csv) as [cs|]; [|discriminate].
  destruct (pd.col_value csv) as [vs|]; [|discriminate].
  simpl. destruct (pd.has_duplicates (pd.records ts cs vs)); [discriminate|].
  intros E. injection E as <-. repeat split. now exists ts, cs, vs.
Qed.

Lemma reshape_Ok (fs : FileSystem) (path : string) (b : bool) (m : string)
      (df : pd.DataFrame T string) :
  reshape fs path b m = Ok df ->
  exists csv, fs path = Some csv /\ pd.has_duplicates (pd.rows csv) = false /\
              df = pd.rename_columns channel_name (fill_gaps b m (pd.unstack (pd.rows csv))).
Proof.
  unfold reshape, read_csv. destruct (fs path) as [csv|]; [|discriminate].
  simpl. destruct (pd.pivot csv) as [p|] eqn:E; [|discriminate].
  simpl. intros E'. injection E' as <-.
  apply pivot_Ok in E. destruct E as (Hd & -> & _).
  now exists csv.
Qed.
End Columns.

(** C8. When the reshape step (read, pivot, fill, rename) succeeds, the
    column names of the table before derivation are exactly the names
    [Channel_<id>] of the channel identifiers that occur in the data rows,
    each once, and the renaming is injective (and, as a function on the
    integers, total). *)
Theorem C8_columns_are_the_renamed_channels :
  forall (T : Type) (K : IndexKey T) (fs : FileSystem) (path : string)
         (fill_missing : bool) (fill_method : string)
         (csv : pd.CsvFrame T) (df : pd.DataFrame T string),
    fs path = Some csv ->
    reshape fs path fill_missing fill_method = Ok df ->
    (forall name, In name (pd.columns df) <->
                  exists c, In c (pd.channels (pd.rows csv)) /\ name = channel_name c)
    /\ NoDup (pd.columns df)
    /\ (forall c1 c2, In c1 (pd.channels (pd.rows csv)) -> In c2 (pd.channels (pd.rows csv)) ->
                      channel_name c1 = channel_name c2 -> c1 = c2).
Proof.
  intros T K fs path b m csv df Hfs Hr.
  apply reshape_Ok in Hr. destruct Hr as (csv' & Hfs' & _ & ->).
  rewrite Hfs in Hfs'. injection Hfs' as <-.
  rewrite columns_rename, columns_fill_gaps, columns_unstack.
  split; [|split].
  - intros name. rewrite in_map_iff. split.
    + intros (c & <- & Hc). exists c. split; [|reflexivity].
      now apply sorted_unique_In in Hc.
    + intros (c & Hc & ->). exists c. split; [reflexivity|].
      apply sorted_unique_has in Hc. destruct Hc as (y & Hy & E).
      apply Z_key_eq in E. now subst.
  - apply NoDup_map_inj; [exact channel_name_inj|].
    apply ascending_NoDup, sorted_unique_sorted.
  - intros c1 c2 _ _. apply channel_name_inj.
Qed.

Lemma C8_witness :
  (forall name, In name ["Channel_2"; "Channel_4"; "Channel_5"] <->
                exists c, In c (pd.channels (pd.rows scenario)) /\ name = channel_name c)
  /\ NoDup ["Channel_2"; "Channel_4"; "Channel_5"]
  /\ (forall c1 c2, In c1 (pd.channels (pd.rows scenario)) -> In c2 (pd.channels (pd.rows scenario)) ->
                    channel_name c1 = channel_name c2 -> c1 = c2).
Proof.
  exact (@C8_columns_are_the_renamed_channels Q _ (one_file "practice.txt" scenario)
           "practice.txt" false "interpolate" scenario _ eq_refl eq_refl).
Defined.

(** ** The pivot *)

Section PivotFacts.
Context {T : Type} `{KeyLaws T}.

Lemma position_found (t : T) (idx : list T) :
  (exists y, In y idx /\ key_eqb y t = true) ->
  exists i x, pd.position t idx = Some i /\ nth_error idx i = Some x /\ key_eqb x t = true.
Proof.
  induction idx as [|a idx IH]; intros (y & Hy & E).
  - destruct Hy.
  - simpl. destruct (key_eqb a t) eqn:Ea.
    + now exists 0%nat, a.
    + destruct Hy as [->|Hy]; [congruence|].
      destruct IH as (i & x & Hp & Hn & Hx); [now exists y|].
      exists (S i), x. now rewrite Hp.
Qed.

Lemma same_entry_compat (x t : T) (c : Z) (r : T * Z * option Q) :
  key_eqb x t = true -> pd.same_entry x c r = pd.same_entry t c r.
Proof.
  destruct r as [[t' c'] v]. unfold pd.same_entry. intros E. f_equal.
  destruct (key_eqb t' t) eqn:E1.
  - apply key_eqb_trans with t; [exact E1 | now rewrite key_eqb_sym].
  - destruct (key_eqb t' x) eqn:E2; [|reflexivity].
    rewrite <- E1. symmetry. now apply key_eqb_trans with x.
Qed.

Lemma existsb_false_find {A : Type} (f : A -> bool) (l : list A) :
  existsb f l = false -> find f l = None.
Proof.
  induction l as [|a l IH]; simpl; [reflexivity|].
  destruct (f a); simpl; [discriminate | exact IH].
Qed.

Lemma existsb_pointwise {A : Type} (f g : A -> bool) (l : list A) :
  (forall a, f a = g a) -> existsb f l = existsb g l.
Proof.
  intros E. induction l as [|a l IH]; simpl; [reflexivity|]. now rewrite E, IH.
Qed.

Lemma existsb_false_In {A : Type} (f : A -> bool) (l : list A) (a : A) :
  existsb f l = false -> In a l -> f a = false.
Proof.
  intros Hno Hin. destruct (f a) eqn:E; [|reflexivity].
  rewrite <- Hno. symmetry. apply existsb_exists. now exists a.
Qed.

Lemma entry_absent (recs : list (T * Z * option Q)) (x t : T) (c : Z) :
  key_eqb x t = true ->
  existsb (pd.same_entry t c) recs = false -> pd.entry recs x c = None.
Proof.
  intros E Hno. unfold pd.entry. rewrite existsb_false_find; [reflexivity|].
  rewrite <- Hno. apply existsb_pointwise. intros r. now apply same_entry_compat.
Qed.

Lemma entry_of_row (recs : list (T * Z * option Q)) (x t : T) (c : Z) (v : option Q) :
  pd.has_duplicates recs = false -> In (t, c, v) recs -> key_eqb x t = true ->
  pd.entry recs x c = v.
Proof.
  intros Hd Hin E. unfold pd.entry.
  induction recs as [|[[t0 c0] v0] rest IH]; [destruct Hin|].
  simpl in Hd. apply orb_false_iff in Hd. destruct Hd as [Hd0 Hd].
  simpl. destruct (key_eqb t0 x && (c0 =? c)%Z) eqn:E0.
  - destruct Hin as [Hin|Hin]; [now injection Hin|].
    apply andb_true_iff in E0. destruct E0 as [Et Ec].
    apply Z.eqb_eq in Ec. subst c0.
    exfalso. apply (existsb_false_In _ _ _ Hd0) in Hin. simpl in Hin.
    clear Hd0. rename Hin into Hd0.
    rewrite Z.eqb_refl, andb_true_r in Hd0.
    assert (key_eqb t t0 = true); [|congruence].
    rewrite key_eqb_sym. apply key_eqb_trans with x; [exact Et | exact E].
  - destruct Hin as [Hin|Hin]; [|now apply IH].
    injection Hin as -> -> ->.
    rewrite key_eqb_sym, E, Z.eqb_refl in E0. discriminate.
Qed.

Lemma find_column (c : Z) (f : Z -> pd.Series) (labels : list Z) :
  In c labels ->
  find (fun ls : Z * pd.Series => (fst ls =? c)%Z) (map (fun c' => (c', f c')) labels)
  = Some (c, f c).
Proof.
  induction labels as [|a labels IH]; [intros []|].
  simpl. destruct (Z.eqb_spec a c) as [->|Hne]; [reflexivity|].
  intros [E|Hin]; [contradiction | now apply IH].
Qed.

Lemma in_times (recs : list (T * Z * option Q)) (t : T) (c : Z) (v : option Q) :
  In (t, c, v) recs -> In t (pd.times recs) /\ In c (pd.channels recs).
Proof.
  intros Hin. split.
  - apply (in_map (fun r => fst (fst r))) in Hin. exact Hin.
  - apply (in_map (fun r => snd (fst r))) in Hin. exact Hin.
Qed.

(** The cell of the pivoted table at a pair whose time and channel occur
    in the data. *)
Lemma at_unstack (recs : list (T * Z * option Q)) (t : T) (c : Z) :
  In t (pd.times recs) -> In c (pd.channels recs) ->
  exists x, key_eqb x t = true /\ pd.at_ (pd.unstack recs) t c = Some (pd.entry recs x c).
Proof.
  intros Ht Hc.
  apply sorted_unique_has in Ht. destruct Ht as (y & Hy & Ey).
  apply sorted_unique_has in Hc. destruct Hc as (c' & Hc & Ec).
  apply Z_key_eq in Ec. subst c'.
  destruct (position_found t (pd.sorted_unique (pd.times recs))) as (i & x & Hp & Hn & Hx).
  { exists y. split; [exact Hy|]. rewrite key_eqb_sym. unfold key_eqb. now rewrite Ey. }
  exists x. split; [exact Hx|].
  unfold pd.at_, pd.unstack. simpl.
  rewrite (find_column c (fun c' => map (fun t' => pd.entry recs t' c')
                                        (pd.sorted_unique (pd.times recs)))) by exact Hc.
  rewrite Hp. rewrite nth_error_map, Hn. reflexivity.
Qed.
End PivotFacts.

(** C4, as stated, fails: on a file in which the pair (time 0, channel 2)
    occurs twice the pivot raises [ValueError]; no table is produced, with
    the last value or with any other. *)
Lemma C4_counterexample :
  pd.has_duplicates (pd.rows duplicated) = true
  /\ pd.pivot duplicated
     = Raise (ValueError "Index contains duplicate entries, cannot reshape")
  /\ forall fill_missing fill_method,
      load_and_process_data (one_file "practice.txt" duplicated) "practice.txt"
                            fill_missing fill_method
      = Raise (ValueError "Index contains duplicate entries, cannot reshape").
Proof. repeat split. Qed.

(** C4, amended.  A file with the three required columns in which some
    (time, channel) pair occurs twice is refused with [ValueError].  When
    no pair occurs twice the pivot produces a table whose row keys are
    strictly ascending, whose column labels are strictly ascending, in
    which every column has one cell per row, and in which the cell at the
    pair of a data row is the value of that row, and the cell at a pair
    without a data row (time and channel each occurring elsewhere) is
    NaN. *)
Theorem C4_pivot_of_distinct_pairs :
  forall (T : Type) (K : IndexKey T) (laws : KeyLaws T) (csv : pd.CsvFrame T)
         (ts : list T) (cs : list Z) (vs : list (option Q)),
    pd.col_time csv = Some ts -> pd.col_channel csv = Some cs -> pd.col_value csv = Some vs ->
    (pd.has_duplicates (pd.rows csv) = true ->
     pd.pivot csv = Raise (ValueError "Index contains duplicate entries, cannot reshape"))
    /\ (pd.has_duplicates (pd.rows csv) = false ->
        exists df, pd.pivot csv = Ok df
          /\ StronglySorted key_lt (pd.index df)
          /\ StronglySorted key_lt (pd.columns df)
          /\ (forall c s, In (c, s) (pd.data df) -> List.length s = List.length (pd.index df))
          /\ (forall t c v, In (t, c, v) (pd.rows csv) -> pd.at_ df t c = Some v)
          /\ (forall t c, In t (pd.times (pd.rows csv)) -> In c (pd.channels (pd.rows csv)) ->
                          existsb (pd.same_entry t c) (pd.rows csv) = false ->
                          pd.at_ df t c = Some None)).
Proof.
  intros T K laws csv ts cs vs Ht Hc Hv.
  unfold pd.pivot, pd.rows. rewrite Ht, Hc, Hv. simpl.
  split; intros Hd; rewrite Hd; [reflexivity|].
  exists (pd.unstack (pd.records ts cs vs)). split; [reflexivity|].
  split; [apply sorted_unique_sorted|].
  split; [rewrite columns_unstack; apply sorted_unique_sorted|].
  split; [|split].
  - intros c s Hin. unfold pd.unstack in *. simpl in *.
    apply in_map_iff in Hin. destruct Hin as (c' & E & _).
    injection E as _ <-. apply length_map.
  - intros t c v Hin.
    destruct (in_times _ _ _ _ Hin) as [Hti Hci].
    destruct (at_unstack _ _ _ Hti Hci) as (x & Hx & ->).
    f_equal. now apply entry_of_row with t.
  - intros t c Hti Hci Hno.
    destruct (at_unstack _ _ _ Hti Hci) as (x & Hx & ->).
    f_equal. now apply entry_absent with t.
Qed.

Lemma C4_witness :
  exists df, pd.pivot gappy = Ok df
    /\ StronglySorted key_lt (pd.index df)
    /\ StronglySorted key_lt (pd.columns df)
    /\ (forall c s, In (c, s) (pd.data df) -> List.length s = List.length (pd.index df))
    /\ (forall t c v, In (t, c, v) (pd.rows gappy) -> pd.at_ df t c = Some v)
    /\ (forall t c, In t (pd.times (pd.rows gappy)) -> In c (pd.channels (pd.rows gappy)) ->
                    existsb (pd.same_entry t c) (pd.rows gappy) = false ->
                    pd.at_ df t c = Some None).
Proof.
  exact (proj2 (@C4_pivot_of_distinct_pairs Q _ Q_laws gappy _ _ _ eq_refl eq_refl eq_refl)
               eq_refl).
Defined.

(** ** Columns by label *)

Section LabelFacts.
Context {T : Type}.
Implicit Types (df : pd.DataFrame T string) (label : string) (s : pd.Series).

Lemma has_column_In df label : pd.has_column df label = true <-> In label (pd.columns df).
Proof.
  unfold pd.has_column. rewrite existsb_exists. split.
  - intros (x & Hx & E). apply String.eqb_eq in E. now subst.
  - intros Hin. exists label. split; [exact Hin | apply String.eqb_refl].
Qed.

Lemma lookup_None df label : pd.has_column df label = false -> pd.lookup df label = None.
Proof.
  unfold pd.has_column, pd.lookup, pd.columns. destruct df as [idx dat]. simpl.
  induction dat as [|[l s] dat IH]; simpl; [reflexivity|].
  rewrite (String.eqb_sym label l). destruct (l =? label); simpl; [discriminate | exact IH].
Qed.

Lemma lookup_Some df label :
  pd.has_column df label = true -> exists s, pd.lookup df label = Some s /\ In (label, s) (pd.data df).
Proof.
  unfold pd.has_column, pd.lookup, pd.columns. destruct df as [idx dat]. simpl.
  induction dat as [|[l s] dat IH]; simpl; [discriminate|].
  rewrite (String.eqb_sym label l). destruct (String.eqb_spec l label) as [->|Hne]; simpl.
  - intros _. exists s. split; [reflexivity | now left].
  - intros Hc. destruct (IH Hc) as (s' & E & Hin). exists s'. split; [exact E | now right].
Qed.

Lemma lookup_has_column df label s : pd.lookup df label = Some s -> pd.has_column df label = true.
Proof.
  intros E. destruct (pd.has_column df label) eqn:Hc; [reflexivity|].
  apply lookup_None in Hc. congruence.
Qed.



Lemma fst_replace_column label s (ls : string * pd.Series) :
  fst (pd.replace_column label s ls) = fst ls.
Proof. unfold pd.replace_column. now destruct (fst ls =? label). Qed.

Lemma find_replace label s label' (dat : list (string * pd.Series)) :
  option_map snd (find (fun ls => fst ls =? label') (map (pd.replace_column label s) dat))
  = if label' =? label
    then option_map (fun _ => s) (find (fun ls => fst ls =? label') dat)
    else option_map snd (find (fun ls => fst ls =? label') dat).
Proof.
  induction dat as [|[l c] dat IH]; cbn [map find].
  - now destruct (label' =? label).
  - rewrite fst_replace_column. cbn [fst].
    destruct (String.eqb_spec l label') as [->|Hne]; [|exact IH].
    unfold pd.replace_column. cbn [fst option_map].
    now destruct (label' =? label).
Qed.

Lemma find_app_new label s label' (dat : list (string * pd.Series)) :
  find (fun ls => fst ls =? label') (dat ++ [(label, s)])
  = match find (fun ls => fst ls =? label') dat with
    | Some x => Some x
    | None => if label =? label' then Some (label, s) else None
    end.
Proof.
  induction dat as [|[l c] dat IH]; simpl; [reflexivity|].
  destruct (l =? label'); [reflexivity | exact IH].
Qed.

Lemma lookup_setitem_eq df label s : pd.lookup (pd.setitem df label s) label = Some s.
Proof.
  unfold pd.lookup, pd.setitem. simpl.
  destruct (pd.has_column df label) eqn:Hc.
  - rewrite find_replace, String.eqb_refl.
    apply lookup_Some in Hc. destruct Hc as (c & E & _).
    unfold pd.lookup in E. destruct (find _ (pd.data df)); [reflexivity | discriminate].
  - rewrite find_app_new. apply lookup_None in Hc. unfold pd.lookup in Hc.
    destruct (find _ (pd.data df)); [discriminate|].
    now rewrite String.eqb_refl.
Qed.

Lemma lookup_setitem_ne df label s label' :
  label' <> label -> pd.lookup (pd.setitem df label s) label' = pd.lookup df label'.
Proof.
  intros Hne. unfold pd.lookup, pd.setitem. simpl.
  destruct (pd.has_column df label) eqn:Hc.
  - rewrite find_replace.
    destruct (String.eqb_spec label' label); [contradiction | reflexivity].
  - rewrite find_app_new. destruct (find _ (pd.data df)); [reflexivity|].
    destruct (String.eqb_spec label label'); [now subst | reflexivity].
Qed.

Lemma columns_replace label s (dat : list (string * pd.Series)) :
  map fst (map (pd.replace_column label s) dat) = map fst dat.
Proof.
  rewrite map_map. apply map_ext. intros [l c]. unfold pd.replace_column. simpl.
  now destruct (l =? label).
Qed.

Lemma columns_setitem_present df label s :
  pd.has_column df label = true -> pd.columns (pd.setitem df label s) = pd.columns df.
Proof.
  intros Hc. unfold pd.columns, pd.setitem. simpl. rewrite Hc. apply columns_replace.
Qed.

Lemma has_column_setitem df label s : pd.has_column (pd.setitem df label s) label = true.
Proof. eapply lookup_has_column, lookup_setitem_eq. Qed.




Lemma nth_error_zip_with {A B C : Type} (f : A -> B -> C) (l : list A) (m : list B) (i : nat) :
  nth_error (pd.zip_with f l m) i
  = match nth_error l i, nth_error m i with
    | Some a, Some b => Some (f a b)
    | _, _ => None
    end.
Proof.
  revert m i. induction l as [|a l IH]; intros [|b m] [|i]; simpl; try reflexivity.
  - now destruct (nth_error l i).
  - apply IH.
Qed.

Lemma well_formed_length df label s :
  pd.well_formed df = true -> In (label, s) (pd.data df) ->
  List.length s = List.length (pd.index df).
Proof.
  unfold pd.well_formed. intros Hw Hin.
  apply andb_true_iff in Hw. destruct Hw as [_ Hw].
  rewrite forallb_forall in Hw. apply Hw in Hin. now apply Nat.eqb_eq in Hin.
Qed.
End LabelFacts.

(** ** Linear interpolation *)

Lemma valid_from_In (k : Z) (s : pd.Series) (x : Z) (y : Q) :
  In (x, y) (pd.valid_from k s)
  <-> exists j, x = (k + Z.of_nat j)%Z /\ nth_error s j = Some (Some y).
Proof.
  revert k. induction s as [|[v|] s IH]; intros k; simpl.
  - split; [intros [] | intros ([|j] & _ & Hj); discriminate].
  - rewrite IH. split.
    + intros [E|(j & -> & Hj)].
      * injection E as <- <-. exists 0%nat. split; [lia | reflexivity].
      * exists (S j). split; [lia | exact Hj].
    + intros ([|j] & -> & Hj); simpl in Hj.
      * injection Hj as ->. left. f_equal. lia.
      * right. exists j. split; [lia | exact Hj].
  - rewrite IH. split.
    + intros (j & -> & Hj). exists (S j). split; [lia | exact Hj].
    + intros ([|j] & -> & Hj); simpl in Hj; [discriminate|].
      exists j. split; [lia | exact Hj].
Qed.

Lemma valid_from_sorted (k : Z) (s : pd.Series) : StronglySorted lt_fst (pd.valid_from k s).
Proof.
  revert k. induction s as [|[v|] s IH]; intros k; simpl.
  - constructor.
  - constructor; [apply IH|].
    apply Forall_forall. intros [x y] Hin. apply valid_from_In in Hin.
    destruct Hin as (j & -> & _). unfold lt_fst. simpl. lia.
  - apply IH.
Qed.

Lemma nth_error_enumerate {A : Type} (k : Z) (l : list A) (i : nat) :
  nth_error (pd.enumerate_from k l) i
  = option_map (fun a => ((k + Z.of_nat i)%Z, a)) (nth_error l i).
Proof.
  revert k i. induction l as [|a l IH]; intros k [|i];
    cbn [pd.enumerate_from nth_error option_map]; try reflexivity.
  - do 2 f_equal. lia.
  - rewrite IH. destruct (nth_error l i); cbn [option_map]; [|reflexivity].
    do 2 f_equal. lia.
Qed.

Section Interp.
Implicit Types (p : Z * Q) (pts : list (Z * Q)).

Lemma sorted_head_le p pts q :
  StronglySorted lt_fst (p :: pts) -> In q (p :: pts) -> (fst p <= fst q)%Z.
Proof.
  intros Hs [<-|Hin]; [lia|].
  inversion Hs as [|? ? _ Hall]; subst. rewrite Forall_forall in Hall.
  apply Hall in Hin. unfold lt_fst in Hin. lia.
Qed.

(** Between two neighbouring sample points [np.interp] is on the line
    through them. *)
Lemma interp_between p0 rest (x xa xb : Z) (ya yb : Q) :
  StronglySorted lt_fst (p0 :: rest) ->
  In (xa, ya) (p0 :: rest) -> In (xb, yb) (p0 :: rest) ->
  (xa < x < xb)%Z ->
  (forall q, In q (p0 :: rest) -> ~ (xa < fst q < xb)%Z) ->
  np.interp p0 rest x = ((yb - ya) / inject_Z (xb - xa) * inject_Z (x - xa) + ya)%Q.
Proof.
  revert p0. induction rest as [|[x1 y1] rest IH]; intros [x0 y0] Hs Ha Hb Hx Hno.
  - destruct Ha as [Ha|[]], Hb as [Hb|[]]. injection Ha as <- <-. injection Hb as <- <-. lia.
  - pose proof (sorted_head_le Hs Ha) as Hle. simpl in Hle.
    assert (Hb' : In (xb, yb) ((x1, y1) :: rest)).
    { destruct Hb as [Hb|Hb]; [|exact Hb]. injection Hb as <- <-. lia. }
    inversion Hs as [|? ? Hs' Hall]; subst.
    pose proof (sorted_head_le Hs' Hb') as Hle'. simpl in Hle'.
    assert (H01 : (x0 < x1)%Z).
    { rewrite Forall_forall in Hall. apply (Hall (x1, y1)). now left. }
    cbn [np.interp]. destruct (Z.leb_spec x x0) as [|_]; [lia|].
    destruct (Z.ltb_spec x x1) as [Hlt|Hge].
    + assert (Ea : (xa, ya) = (x0, y0)).
      { destruct Ha as [Ha|Ha]; [now symmetry|].
        pose proof (sorted_head_le Hs' Ha) as H1. simpl in H1. lia. }
      injection Ea as -> ->.
      assert (Eb : (xb, yb) = (x1, y1)).
      { destruct Hb' as [Hb'|Hb']; [now symmetry|].
        inversion Hs' as [|? ? _ Hall']; subst. rewrite Forall_forall in Hall'.
        apply Hall' in Hb'. unfold lt_fst in Hb'. simpl in Hb'.
        exfalso. apply (Hno (x1, y1)); [right; now left | simpl; lia]. }
      injection Eb as -> ->. reflexivity.
    + apply IH; try assumption.
      * destruct Ha as [Ha|Ha]; [|exact Ha]. injection Ha as <- <-.
        exfalso. apply (Hno (x1, y1)); [right; now left | simpl; lia].
      * intros q Hq. apply Hno. now right.
Qed.

(** Right of the last sample point [np.interp] is the last ordinate. *)
Lemma interp_after p0 rest (x xa : Z) (ya : Q) :
  StronglySorted lt_fst (p0 :: rest) ->
  In (xa, ya) (p0 :: rest) ->
  (xa < x)%Z ->
  (forall q, In q (p0 :: rest) -> (fst q <= xa)%Z) ->
  np.interp p0 rest x = ya.
Proof.
  revert p0. induction rest as [|[x1 y1] rest IH]; intros [x0 y0] Hs Ha Hx Hlast.
  - destruct Ha as [Ha|[]]. injection Ha as <- <-.
    cbn [np.interp]. destruct (Z.leb_spec x x0); [lia | reflexivity].
  - pose proof (sorted_head_le Hs Ha) as Hle. simpl in Hle.
    inversion Hs as [|? ? Hs' Hall]; subst.
    assert (H01 : (x0 < x1)%Z).
    { rewrite Forall_forall in Hall. apply (Hall (x1, y1)). now left. }
    assert (H1a : (x1 <= xa)%Z).
    { apply (Hlast (x1, y1)). right. now left. }
    cbn [np.interp]. destruct (Z.leb_spec x x0) as [|_]; [lia|].
    destruct (Z.ltb_spec x x1) as [|_]; [lia|].
    apply IH; try assumption.
    + destruct Ha as [Ha|Ha]; [|exact Ha]. injection Ha as <- <-. lia.
    + intros q Hq. apply Hlast. now right.
Qed.
End Interp.

Lemma length_interpolate_1d (s : pd.Series) :
  List.length (pd.interpolate_1d s) = List.length s.
Proof.
  unfold pd.interpolate_1d. destruct (pd.valid_from 0 s) as [|[first y0] rest]; [reflexivity|].
  rewrite length_map. generalize 0%Z.
  induction s as [|a s IH]; intros k; simpl; [reflexivity | now rewrite IH].
Qed.

(** What [interpolate_1d] does to a column, row by row. *)
Lemma interpolate_1d_rows (s : pd.Series) :
  (* a known value stays *)
  (forall i v, nth_error s i = Some (Some v) ->
               nth_error (pd.interpolate_1d s) i = Some (Some v))
  (* between two known values: the line through them, by row position *)
  /\ (forall i0 i i1 v0 v1,
         (i0 < i < i1)%nat ->
         nth_error s i0 = Some (Some v0) -> nth_error s i1 = Some (Some v1) ->
         (forall j, (i0 < j < i1)%nat -> nth_error s j = Some None) ->
         exists q, nth_error (pd.interpolate_1d s) i = Some (Some q)
                   /\ (q == linear (row i0) v0 (row i1) v1 (row i))%Q)
  (* before the first known value: still missing *)
  /\ (forall i, (forall j, (j <= i)%nat -> nth_error s j = Some None) ->
                nth_error (pd.interpolate_1d s) i = Some None)
  (* after the last known value: the last known value *)
  /\ (forall i0 i v0,
         (i0 < i < List.length s)%nat ->
         nth_error s i0 = Some (Some v0) ->
         (forall j, (i0 < j < List.length s)%nat -> nth_error s j = Some None) ->
         nth_error (pd.interpolate_1d s) i = Some (Some v0)).
Proof.
  pose proof (valid_from_sorted 0 s) as Hs.
  assert (Hin : forall x y, In (x, y) (pd.valid_from 0 s)
                            <-> exists j, x = Z.of_nat j /\ nth_error s j = Some (Some y)).
  { intros x y. rewrite valid_from_In. split; intros (j & E & Hj); exists j; split; auto; lia. }
  unfold pd.interpolate_1d.
  destruct (pd.valid_from 0 s) as [|[first y0] rest] eqn:Ev.
  - (* no valid row *)
    repeat split.
    + intros i v Hi. exact Hi.
    + intros i0 i i1 v0 v1 _ H0 _ _. exfalso.
      apply (proj2 (Hin (Z.of_nat i0) v0)). now exists i0.
    + intros i Hi. apply Hi. lia.
    + intros i0 i v0 _ H0 _. exfalso.
      apply (proj2 (Hin (Z.of_nat i0) v0)). now exists i0.
  - assert (Hfirst : forall j y, nth_error s j = Some (Some y) -> (first <= Z.of_nat j)%Z).
    { intros j y Hj.
      apply (sorted_head_le (q := (Z.of_nat j, y)) Hs). apply Hin. now exists j. }
    repeat split.
    + intros i v Hi. rewrite nth_error_map, nth_error_enumerate, Hi. reflexivity.
    + intros i0 i i1 v0 v1 Hlt H0 H1 Hgap.
      rewrite nth_error_map, nth_error_enumerate, (Hgap i Hlt). simpl.
      pose proof (Hfirst _ _ H0) as Hf.
      destruct (Z.ltb_spec (Z.of_nat i) first) as [|_]; [lia|].
      eexists. split; [reflexivity|].
      rewrite (@interp_between (first, y0) rest (Z.of_nat i) (Z.of_nat i0) (Z.of_nat i1) v0 v1).
      * unfold linear, row, Z.sub. rewrite !inject_Z_plus, !inject_Z_opp.
        assert (inject_Z (Z.of_nat i0) < inject_Z (Z.of_nat i1))%Q
          by (rewrite <- Zlt_Qlt; lia).
        field. lra.
      * exact Hs.
      * apply Hin. now exists i0.
      * apply Hin. now exists i1.
      * lia.
      * intros [x y] Hq [Hx0 Hx1]. simpl in *. apply Hin in Hq.
        destruct Hq as (j & -> & Hj). rewrite Hgap in Hj by lia. discriminate.
    + intros i Hi.
      rewrite nth_error_map, nth_error_enumerate, (Hi i (Nat.le_refl i)). simpl.
      destruct (Z.ltb_spec (Z.of_nat i) first) as [|Hge]; [reflexivity|].
      exfalso.
      destruct (proj1 (Hin first y0)) as (j & -> & Hj); [now left|].
      rewrite Hi in Hj by lia. discriminate.
    + intros i0 i v0 Hlt H0 Hgap.
      destruct (nth_error s i) as [a|] eqn:Ni; [|apply nth_error_None in Ni; lia].
      rewrite nth_error_map, nth_error_enumerate, Ni.
      rewrite Hgap in Ni by lia. injection Ni as <-. simpl.
      pose proof (Hfirst _ _ H0) as Hf.
      destruct (Z.ltb_spec (Z.of_nat i) first) as [|_]; [lia|].
      do 2 f_equal.
      apply (@interp_after (first, y0) rest (Z.of_nat i) (Z.of_nat i0) v0).
      * exact Hs.
      * apply Hin. now exists i0.
      * lia.
      * intros [x y] Hq. simpl. apply Hin in Hq. destruct Hq as (j & -> & Hj).
        destruct (Nat.le_gt_cases j i0) as [|Hgt]; [lia|].
        assert (j < List.length s)%nat by (apply nth_error_Some; congruence).
        rewrite Hgap in Hj by lia. discriminate.
Qed.

(** ** Reshaped tables are well formed *)

Lemma length_ffill_from (last : option Q) (s : pd.Series) :
  List.length (pd.ffill_from last s) = List.length s.
Proof.
  revert last. induction s as [|[v|] s IH]; intros last; simpl; now rewrite ?IH.
Qed.

Lemma length_fill_1d (f : pd.Series -> pd.Series) (s : pd.Series) :
  f = pd.interpolate_1d \/ f = pd.ffill_1d \/ f = pd.bfill_1d ->
  List.length (f s) = List.length s.
Proof.
  intros [-> | [-> | ->]].
  - apply length_interpolate_1d.
  - apply length_ffill_from.
  - unfold pd.bfill_1d, pd.ffill_1d. now rewrite length_rev, length_ffill_from, length_rev.
Qed.

Lemma distinct_NoDup (l : list string) : NoDup l -> pd.distinct l = true.
Proof.
  induction 1 as [|a l Ha Hl IH]; simpl; [reflexivity|].
  rewrite IH, andb_true_r. apply negb_true_iff.
  destruct (existsb (String.eqb a) l) eqn:E; [|reflexivity].
  apply existsb_exists in E. destruct E as (x & Hx & E).
  apply String.eqb_eq in E. now subst.
Qed.

Lemma lengths_fill_gaps {T : Type} (b : bool) (m : string) (df : pd.DataFrame T Z) (n : nat) :
  Forall (fun ls : Z * pd.Series => List.length (snd ls) = n) (pd.data df) ->
  Forall (fun ls : Z * pd.Series => List.length (snd ls) = n) (pd.data (fill_gaps b m df)).
Proof.
  intros Hall.
  assert (Hf : forall f, (f = pd.interpolate_1d \/ f = pd.ffill_1d \/ f = pd.bfill_1d) ->
                         Forall (fun ls : Z * pd.Series => List.length (snd ls) = n)
                                (pd.data (pd.map_columns f df))).
  { intros f Hf. unfold pd.map_columns. simpl. apply Forall_map.
    eapply Forall_impl; [|exact Hall]. intros [l c] E. simpl in *.
    now rewrite length_fill_1d. }
  unfold fill_gaps, pd.interpolate, pd.ffill, pd.bfill.
  destruct b; [|exact Hall].
  repeat match goal with |- context [if ?c then _ else _] => destruct c end;
    auto using Hf.
Qed.

(** The table that the reshape step returns has distinct column names
    and one cell per row in every column. *)
Lemma reshape_well_formed {T : Type} `{IndexKey T} (fs : FileSystem) (path : string)
      (b : bool) (m : string) (df : pd.DataFrame T string) :
  reshape fs path b m = Ok df -> pd.well_formed df = true.
Proof.
  intros Hr. apply reshape_Ok in Hr. destruct Hr as (csv & _ & _ & ->).
  unfold pd.well_formed. apply andb_true_iff. split.
  - apply distinct_NoDup.
    rewrite columns_rename, columns_fill_gaps, columns_unstack.
    apply NoDup_map_inj; [exact channel_name_inj|].
    apply ascending_NoDup, sorted_unique_sorted.
  - apply forallb_forall. intros [l c] Hin. apply Nat.eqb_eq.
    cbn [pd.rename_columns pd.index pd.data snd] in *.
    rewrite index_fill_gaps.
    apply in_map_iff in Hin. destruct Hin as ([l' c'] & E & Hin).
    injection E as _ <-.
    assert (Hall : Forall (fun ls : Z * pd.Series =>
                             List.length (snd ls)
                             = List.length (pd.index (pd.unstack (pd.rows csv))))
                          (pd.data (pd.unstack (pd.rows csv)))).
    { apply Forall_forall. intros [l0 c0] Hin0. unfold pd.unstack in *. simpl in *.
      apply in_map_iff in Hin0. destruct Hin0 as (c1 & E & _).
      injection E as _ <-. apply length_map. }
    apply (lengths_fill_gaps b m) in Hall.
    rewrite Forall_forall in Hall. exact (Hall (l', c') Hin).
Qed.

Example uneven_pivoted : pd.pivot uneven = Ok uneven_pivot.
Proof. reflexivity. Qed.

Example uneven_unfilled :
  load_and_process_data (one_file "practice.txt" uneven) "practice.txt" false "interpolate"
  = Ok {| pd.index := [0; 1; 3]%Q;
          pd.data := [("Channel_4", [Some 0; None; Some 3]);
                      ("Channel_5", [Some 1; Some 2; None]);
                      ("Channel_7", [Some 1; None; None])]%Q |}.
Proof. reflexivity. Qed.

Example uneven_interpolated :
  load_and_process_data (one_file "practice.txt" uneven) "practice.txt" true "interpolate"
  = Ok {| pd.index := [0; 1; 3]%Q;
          pd.data := [("Channel_4", [Some 0; Some (3 # 2); Some 3]);
                      ("Channel_5", [Some 1; Some 2; Some 2]);
                      ("Channel_7", [Some 1; Some (1 # 2); Some (-1)])]%Q |}.
Proof. reflexivity. Qed.

(** C3, as stated, fails twice on the file [uneven], whose times are 0, 1
    and 3.  Channel 4 is known at the times 0 (value 0) and 3 (value 3)
    and missing at the time 1: the filled value is 3/2, half way between
    the two rows, and not the value 1 of the line by time.  Channel 5 is
    last known at the time 1 (value 2) and missing at the time 3: the
    filled table holds 2 there, not a missing value. *)
Lemma C3_counterexample :
  exists unfilled filled,
    load_and_process_data (one_file "practice.txt" uneven) "practice.txt" false "interpolate"
    = Ok unfilled
    /\ load_and_process_data (one_file "practice.txt" uneven) "practice.txt" true "interpolate"
       = Ok filled
    /\ pd.index filled = [0; 1; 3]%Q
    /\ pd.lookup unfilled "Channel_4" = Some [Some 0; None; Some 3]%Q
    /\ pd.cell filled "Channel_4" 1 = Some (Some (3 # 2))
    /\ ~ (3 # 2 == linear 0 0 3 3 1)%Q
    /\ pd.lookup unfilled "Channel_5" = Some [Some 1; Some 2; None]%Q
    /\ pd.cell filled "Channel_5" 2 = Some (Some 2%Q).
Proof.
  eexists _, _. repeat split. intros E. discriminate E.
Qed.

(** C3, amended.  Under the linear-interpolate fill policy every column is
    filled on its own and keeps its length, and in it: a known value
    stays; a missing value between two known values takes the value of
    the line through the nearest known earlier and the nearest known
    later value by row position, the rows counting as equally spaced
    whatever their times; a missing value before the first known value
    stays missing; a missing value after the last known value takes the
    last known value. *)
Theorem C3_interpolation_by_row_position :
  forall (T : Type) (df : pd.DataFrame T Z) (k : nat) (label : Z) (s : pd.Series),
    nth_error (pd.data df) k = Some (label, s) ->
    exists s',
      nth_error (pd.data (fill_gaps true "interpolate" df)) k = Some (label, s')
      /\ pd.index (fill_gaps true "interpolate" df) = pd.index df
      /\ List.length s' = List.length s
      /\ (forall i v, nth_error s i = Some (Some v) -> nth_error s' i = Some (Some v))
      /\ (forall i0 i i1 v0 v1,
             (i0 < i < i1)%nat ->
             nth_error s i0 = Some (Some v0) -> nth_error s i1 = Some (Some v1) ->
             (forall j, (i0 < j < i1)%nat -> nth_error s j = Some None) ->
             exists q, nth_error s' i = Some (Some q)
                       /\ (q == linear (row i0) v0 (row i1) v1 (row i))%Q)
      /\ (forall i, (forall j, (j <= i)%nat -> nth_error s j = Some None) ->
                    nth_error s' i = Some None)
      /\ (forall i0 i v0,
             (i0 < i < List.length s)%nat ->
             nth_error s i0 = Some (Some v0) ->
             (forall j, (i0 < j < List.length s)%nat -> nth_error s j = Some None) ->
             nth_error s' i = Some (Some v0)).
Proof.
  intros T df k label s Hk.
  exists (pd.interpolate_1d s).
  split.
  { cbn. rewrite nth_error_map, Hk. reflexivity. }
  split; [reflexivity|].
  split; [apply length_interpolate_1d|].
  apply interpolate_1d_rows.
Qed.

Lemma C3_witness :
  (exists s' q,
      nth_error (pd.data (fill_gaps true "interpolate" uneven_pivot)) 0
      = Some (4%Z, s')
      /\ nth_error s' 0 = Some (Some 0%Q)
      /\ nth_error s' 1 = Some (Some q)
      /\ (q == linear (row 0) 0 (row 2) 3 (row 1))%Q)
  /\ (exists s',
         nth_error (pd.data (fill_gaps true "interpolate" uneven_pivot)) 1
         = Some (5%Z, s')
         /\ nth_error s' 2 = Some (Some 2%Q)).
Proof.
  split.
  - destruct (@C3_interpolation_by_row_position Q uneven_pivot 0 4%Z
                [Some 0; None; Some 3]%Q eq_refl)
      as (s' & Hk & _ & _ & Hknown & Hmid & _ & _).
    destruct (Hmid 0%nat 1%nat 2%nat 0%Q 3%Q (conj (le_n 1) (le_n 2)) eq_refl eq_refl)
      as (q & Hq & E).
    { intros j [Hlo Hhi]. assert (j = 1)%nat as -> by lia. reflexivity. }
    exists s', q. repeat split; try assumption. now apply Hknown.
  - destruct (@C3_interpolation_by_row_position Q uneven_pivot 1 5%Z
                [Some 1; Some 2; None]%Q eq_refl)
      as (s' & Hk & _ & _ & _ & _ & _ & Hlast).
    exists s'. split; [exact Hk|].
    apply (Hlast 1%nat 2%nat 2%Q); [simpl; lia | reflexivity|].
    intros j [Hlo Hhi]. simpl in Hhi. assert (j = 2)%nat as -> by lia. reflexivity.
Defined.

(** ** The derivation step *)

Section DeriveFacts.
Context {T : Type}.
Implicit Types (df : pd.DataFrame T string).


Lemma derive_Raise df :
  pd.has_column df "Channel_4" = false \/ pd.has_column df "Channel_5" = false ->
  derive df = Raise (KeyError (if pd.has_column df "Channel_5"
                               then "Channel_4" else "Channel_5")).
Proof.
  intros Hno. unfold derive, pd.getitem.
  destruct (pd.has_column df "Channel_5") eqn:H5.
  - destruct Hno as [H4|]; [|discriminate].
    apply lookup_Some in H5. destruct H5 as (c5 & -> & _). simpl.
    now rewrite (lookup_None _ _ H4).
  - now rewrite (lookup_None _ _ H5).
Qed.

End DeriveFacts.



Example gappy_reshaped :
  reshape (one_file "practice.txt" gappy) "practice.txt" false "interpolate" = Ok gappy_table.
Proof. reflexivity. Qed.


(** C7. On a table without the column [Channel_4] or without the column
    [Channel_5] the derivation step raises [KeyError] (for [Channel_5]
    when that one is absent, else for [Channel_4]); a run whose reshaped
    table is such a table ends with that error after the call of
    [load_and_process_data] alone: nothing is printed, no first time is
    computed, and the plot is not called. *)
Theorem C7_missing_source_column :
  forall (T : Type) (K : IndexKey T) (df : pd.DataFrame T string),
    pd.has_column df "Channel_4" = false \/ pd.has_column df "Channel_5" = false ->
    let e := KeyError (if pd.has_column df "Channel_5" then "Channel_4" else "Channel_5") in
    derive df = Raise e
    /\ forall (args : Args) (fs : FileSystem) path fill_missing fill_method,
        settings args = Ok (path, fill_missing, fill_method) ->
        reshape fs path fill_missing fill_method = Ok df ->
        load_and_process_data fs path fill_missing fill_method = Raise e
        /\ main args fs = ([Load path fill_missing fill_method], Raise e).
Proof.
  intros T K df Hno e. pose proof (derive_Raise df Hno) as Hd. fold e in Hd.
  split; [exact Hd|].
  intros args fs path b m Hs Hr.
  assert (Hl : load_and_process_data fs path b m = Raise e).
  { unfold load_and_process_data. rewrite Hr. exact Hd. }
  split; [exact Hl|].
  unfold main. now rewrite Hs, Hl.
Qed.

Lemma C7_witness :
  derive no_five_table = Raise (KeyError "Channel_5")
  /\ load_and_process_data (one_file "practice.txt" no_five) "practice.txt" false "interpolate"
     = Raise (KeyError "Channel_5")
  /\ main {| input := Some "practice.txt"; fill := false; method := None |}
          (one_file "practice.txt" no_five)
     = ([Load "practice.txt" false "interpolate"], Raise (KeyError "Channel_5")).
Proof.
  destruct (@C7_missing_source_column Q _ no_five_table (or_intror eq_refl)) as [Hd Hrun].
  split; [exact Hd|].
  exact (Hrun {| input := Some "practice.txt"; fill := false; method := None |}
              (one_file "practice.txt" no_five) "practice.txt" false "interpolate"
              eq_refl eq_refl).
Defined.




Example with_seven_run :
  load_and_process_data (one_file "practice.txt" with_seven) "practice.txt" false "interpolate"
  = Ok {| pd.index := [0; 1]%Q;
          pd.data := [("Channel_4", [Some 1; Some 1]);
                      ("Channel_5", [Some (1 # 2); Some (1 # 5)]);
                      ("Channel_7", [Some (-1 # 2); Some (-4 # 5)])]%Q |}.
Proof. reflexivity. Qed.

(** ** The first times *)

Lemma index_min_least (l : list Q) :
  match pd.index_min l with
  | Some m => In m l /\ forall x, In x l -> (m <= x)%Q
  | None => l = []
  end.
Proof.
  induction l as [|a l IH]; simpl; [reflexivity|].
  destruct (pd.index_min l) as [m|].
  - destruct IH as [Hm Hle].
    unfold key_cmp, Q_key. destruct (Qcompare_spec a m) as [E|L|G].
    + split; [now left|]. intros x [<-|Hx]; [lra|]. specialize (Hle x Hx). lra.
    + split; [now left|]. intros x [<-|Hx]; [lra|]. specialize (Hle x Hx). lra.
    + split; [now right|]. intros x [<-|Hx]; [lra|]. now apply Hle.
  - subst l. split; [now left|]. intros x [<-|[]]. lra.
Qed.

Lemma mask_index_In {T : Type} (idx : list T) (mask : list bool) (t : T) :
  In t (pd.mask_index idx mask)
  <-> exists i, nth_error idx i = Some t /\ nth_error mask i = Some true.
Proof.
  revert mask. induction idx as [|a idx IH]; intros mask.
  - simpl. split; [intros [] | intros ([|i] & Hi & _); discriminate].
  - destruct mask as [|b mask].
    + simpl. split; [intros [] | intros ([|i] & _ & Hi); discriminate].
    + split.
      * simpl. destruct b.
        -- intros [<-|Hin]; [now exists 0%nat|].
           apply IH in Hin. destruct Hin as (i & Hi & Hm). now exists (S i).
        -- intros Hin. apply IH in Hin. destruct Hin as (i & Hi & Hm). now exists (S i).
      * intros ([|i] & Hi & Hm); simpl in *.
        -- injection Hi as <-. injection Hm as ->. now left.
        -- assert (In t (pd.mask_index idx mask)) by (apply IH; now exists i).
           destruct b; [now right | assumption].
Qed.

Lemma first_time_of_mask (idx : list Q) (mask : list bool) (P : nat -> Prop) :
  (forall i, nth_error mask i = Some true <-> P i) ->
  first_time idx P (pd.index_min (pd.mask_index idx mask)).
Proof.
  intros HP. pose proof (index_min_least (pd.mask_index idx mask)) as Hmin.
  destruct (pd.index_min (pd.mask_index idx mask)) as [m|]; simpl.
  - destruct Hmin as [Hin Hle]. split.
    + apply mask_index_In in Hin. destruct Hin as (i & Hi & Hm).
      exists i. split; [exact Hi | now apply HP].
    + intros i t' Hi Hp. apply Hle, mask_index_In. exists i.
      split; [exact Hi | now apply HP].
  - intros i t' Hi Hp.
    assert (Hin : In t' (pd.mask_index idx mask)).
    { apply mask_index_In. exists i. split; [exact Hi | now apply HP]. }
    rewrite Hmin in Hin. destruct Hin.
Qed.

Lemma lt_cell_true (c : Q) (a : option Q) :
  pd.lt_cell c a = true <-> exists v, a = Some v /\ (v < c)%Q.
Proof.
  unfold pd.lt_cell. destruct a as [x|].
  - destruct (Qcompare_spec x c) as [E|L|G]; split; try discriminate.
    + intros (v & Hv & Hlt). injection Hv as <-. lra.
    + intros _. now exists x.
    + reflexivity.
    + intros (v & Hv & Hlt). injection Hv as <-. lra.
  - split; [discriminate | intros (v & Hv & _); discriminate].
Qed.

Lemma lt_mask_below {T : Type} (df : pd.DataFrame T string) (label : string)
      (s : pd.Series) (c : Q) (i : nat) :
  pd.lookup df label = Some s ->
  nth_error (pd.lt s c) i = Some true <-> below df label c i.
Proof.
  intros E. unfold below, pd.cell, pd.lt. rewrite E, nth_error_map.
  destruct (nth_error s i) as [a|]; simpl.
  - split.
    + intros Ht. injection Ht as Ht. apply lt_cell_true in Ht.
      destruct Ht as (v & -> & Hlt). now exists v.
    + intros (v & Hv & Hlt). injection Hv as ->. f_equal.
      apply lt_cell_true. now exists v.
  - split; [discriminate | intros (v & Hv & _); discriminate].
Qed.

(** C1, as stated, fails: the table made from a file that holds the
    channels 4 and 5 only is a reshaped table after derivation, and on it
    the evaluator returns no time and no NaN: the lookup of [Channel_2]
    raises [KeyError]. *)
Lemma C1_counterexample :
  exists df,
    load_and_process_data (one_file "practice.txt" only_four_five) "practice.txt"
                          false "interpolate" = Ok df
    /\ find_first_conditions df = Raise (KeyError "Channel_2")
    /\ forall r, find_first_conditions df <> Ok r.
Proof.
  eexists. split; [reflexivity|]. split; [reflexivity|]. intros r. discriminate.
Qed.

(** C1, amended.  On every table that the derivation step returns and
    that has a column [Channel_2], the evaluator returns three results,
    one for each of [Channel_2 < -1/2], [Channel_7 < 0] and their
    conjunction: the least time of the rows where the predicate holds with
    the values it reads present, a row with a missing value not counting,
    and NaN when there is no such row. *)
Theorem C1_first_times :
  forall (pre df : pd.DataFrame Q string),
    derive pre = Ok df ->
    pd.has_column df "Channel_2" = true ->
    exists r1 r2 r3,
      find_first_conditions df = Ok (r1, r2, r3)
      /\ first_time (pd.index df) (below df "Channel_2" (-1 # 2)) r1
      /\ first_time (pd.index df) (below df "Channel_7" 0) r2
      /\ first_time (pd.index df)
                    (fun i => below df "Channel_2" (-1 # 2) i /\ below df "Channel_7" 0 i) r3.
Proof.
  intros pre df Hd H2.
  assert (H7 : pd.has_column df "Channel_7" = true).
  { unfold derive in Hd.
    destruct (pd.getitem pre "Channel_5"); [|discriminate].
    destruct (pd.getitem pre "Channel_4"); [|discriminate].
    simpl in Hd. injection Hd as <-. apply has_column_setitem. }
  apply lookup_Some in H2. destruct H2 as (c2 & E2 & _).
  apply lookup_Some in H7. destruct H7 as (c7 & E7 & _).
  unfold find_first_conditions, pd.getitem. rewrite E2, E7. simpl.
  eexists _, _, _. split; [reflexivity|].
  split; [|split]; apply first_time_of_mask; intros i.
  - now apply lt_mask_below.
  - now apply lt_mask_below.
  - unfold pd.and_. rewrite nth_error_zip_with.
    rewrite <- (lt_mask_below df "Channel_2" (-1 # 2) i E2).
    rewrite <- (lt_mask_below df "Channel_7" 0 i E7).
    destruct (nth_error (pd.lt c2 (-1 # 2)) i) as [[|]|];
      destruct (nth_error (pd.lt c7 0) i) as [[|]|]; simpl;
      split; try discriminate; try tauto; intros [? ?]; discriminate.
Qed.

Lemma C1_witness :
  derive gappy_table = Ok gappy_derived
  /\ find_first_conditions gappy_derived = Ok (Some 2, Some 0, Some 2)%Q
  /\ first_time [0; 1; 2]%Q (below gappy_derived "Channel_2" (-1 # 2)) (Some 2%Q)
  /\ first_time [0; 1; 2]%Q (below gappy_derived "Channel_7" 0) (Some 0%Q)
  /\ first_time [0; 1; 2]%Q
        (fun i => below gappy_derived "Channel_2" (-1 # 2) i
                  /\ below gappy_derived "Channel_7" 0 i)
        (Some 2%Q).
Proof.
  destruct (@C1_first_times gappy_table gappy_derived eq_refl eq_refl)
    as (r1 & r2 & r3 & E & H1 & H2 & H3).
  change (Ok (Some 2, Some 0, Some 2)%Q = Ok (r1, r2, r3)) in E.
  injection E as <- <- <-.
  split; [reflexivity|]. split; [reflexivity|].
  split; [exact H1|]. split; [exact H2 | exact H3].
Defined.

Example gappy_first_times :
  (df <- derive gappy_table ;; find_first_conditions df) = Ok (Some 2, Some 0, Some 2)%Q.
Proof. reflexivity. Qed.

(** ** The command line *)

Lemma path_of_settings (args : Args) :
  (if truthy (input args) then get (input args) else "") = path_of args.
Proof.
  unfold path_of, truthy, get. destruct (input args) as [p|]; [|reflexivity].
  destruct (String.eqb_spec p ""); simpl; congruence.
Qed.

Lemma fill_of_settings (b : bool) : (if b then true else false) = b.
Proof. now destruct b. Qed.

Lemma valid_method (m : string) :
  In m fill_methods -> existsb (String.eqb m) fill_methods = true /\ m <> "".
Proof.
  intros Hin. split.
  - apply existsb_exists. exists m. split; [exact Hin | apply String.eqb_refl].
  - intros ->. simpl in Hin. intuition discriminate.
Qed.

Lemma invalid_method (m : string) :
  ~ In m fill_methods -> existsb (String.eqb m) fill_methods = false.
Proof.
  intros Hno. destruct (existsb (String.eqb m) fill_methods) eqn:E; [|reflexivity].
  apply existsb_exists in E. destruct E as (x & Hx & E).
  apply String.eqb_eq in E. now subst.
Qed.

Lemma fill_gaps_method {T : Type} (m : string) (df : pd.DataFrame T Z) :
  In m fill_methods -> fill_gaps true m df = pd.map_columns (method_fill m) df.
Proof.
  intros [<-|[<-|[<-|[]]]]; reflexivity.
Qed.

Lemma main_calls_load {T : Type} `{IndexKey T} (args : Args) (fs : FileSystem)
      (path : string) (b : bool) (m : string) :
  settings args = Ok (path, b, m) ->
  exists rest outcome, main args fs = (Load path b m :: rest, outcome).
Proof.
  intros Hs. unfold main. rewrite Hs.
  destruct (load_and_process_data fs path b m) as [df|e]; [|now eexists _, _].
  destruct (find_first_conditions df); now eexists _, _.
Qed.

(** C5, as stated, fails: with [-m ffill] and without [-f] the run loads
    the file [gappy] with the fill switch off, and the table it prints,
    evaluates and plots has the gap of the pivot in [Channel_5] at the
    second row, where the forward fill puts the value 1/2. *)
Lemma C5_counterexample :
  method method_only = Some "ffill"
  /\ In "ffill" fill_methods
  /\ main method_only (one_file "practice.txt" gappy)
     = ([Load "practice.txt" false "ffill";
         PrintHead gappy_derived;
         PrintConditions (Some 2, Some 0, Some 2)%Q;
         Plot gappy_derived "practice.txt" false "ffill"],
        Ok tt)
  /\ pd.cell gappy_derived "Channel_5" 1 = Some None
  /\ exists filled,
      load_and_process_data (one_file "practice.txt" gappy) "practice.txt" true "ffill"
      = Ok filled
      /\ pd.cell filled "Channel_5" 1 = Some (Some (1 # 2)).
Proof.
  split; [reflexivity|]. split; [simpl; tauto|].
  split; [reflexivity|]. split; [reflexivity|].
  eexists. split; reflexivity.
Qed.

(** C5, amended.  An invocation that supplies a valid fill method calls
    the loader with that method and with the fill switch as it was
    supplied.  With the switch the columns of the pivot are filled with
    that method; without the switch they are not filled, whatever the
    method. *)
Theorem C5_method_needs_the_switch :
  forall (T : Type) (K : IndexKey T) (args : Args) (m : string),
    method args = Some m ->
    In m fill_methods ->
    settings args = Ok (path_of args, fill args, m)
    /\ (forall fs : FileSystem,
          exists rest outcome,
            main args fs = (Load (path_of args) (fill args) m :: rest, outcome))
    /\ (forall fs : FileSystem,
          load_and_process_data fs (path_of args) (fill args) m
          = (csv <- read_csv fs (path_of args) ;;
             df_pivot <- pd.pivot csv ;;
             derive (pd.rename_columns channel_name
                       (if fill args then pd.map_columns (method_fill m) df_pivot
                        else df_pivot)))).
Proof.
  intros T K args m Hm Hin.
  destruct (valid_method Hin) as [Hex Hne].
  assert (Hs : settings args = Ok (path_of args, fill args, m)).
  { unfold settings. rewrite path_of_settings, fill_of_settings, Hm.
    unfold truthy, get. destruct (String.eqb_spec m ""); [contradiction|].
    cbn [negb]. now rewrite Hex. }
  split; [exact Hs|]. split.
  - intros fs. now apply main_calls_load.
  - intros fs. unfold load_and_process_data, reshape.
    destruct (read_csv fs (path_of args)) as [csv|e]; [|reflexivity]. simpl.
    destruct (pd.pivot csv) as [p|e]; [|reflexivity]. simpl.
    destruct (fill args); [now rewrite fill_gaps_method | reflexivity].
Qed.

Lemma C5_witness :
  settings method_only = Ok ("practice.txt", false, "ffill")
  /\ (forall fs : FileSystem (T := Q),
        exists rest outcome,
          main method_only fs = (Load "practice.txt" false "ffill" :: rest, outcome))
  /\ (forall fs : FileSystem (T := Q),
        load_and_process_data fs "practice.txt" false "ffill"
        = (csv <- read_csv fs "practice.txt" ;;
           df_pivot <- pd.pivot csv ;;
           derive (pd.rename_columns channel_name df_pivot))).
Proof.
  exact (@C5_method_needs_the_switch Q _ method_only "ffill" eq_refl
           (or_intror (or_introl eq_refl))).
Defined.

(** C6, as stated, fails: the empty string is not one of the three
    methods, and with [-m ""] no error is raised: the test [if
    args.method:] takes the empty string for an absent argument, the
    method stays [interpolate] and the file is loaded. *)
Lemma C6_counterexample :
  method empty_method = Some ""
  /\ ~ In "" fill_methods
  /\ settings empty_method = Ok ("practice.txt", true, "interpolate")
  /\ main empty_method (one_file "practice.txt" scenario)
     = ([Load "practice.txt" true "interpolate";
         PrintHead (pd.setitem (pd.rename_columns channel_name (pd.unstack (pd.rows scenario)))
                               "Channel_7" [Some (-1 # 2); Some (-4 # 5)]%Q);
         PrintConditions (Some 1, Some 0, Some 1)%Q;
         Plot (pd.setitem (pd.rename_columns channel_name (pd.unstack (pd.rows scenario)))
                          "Channel_7" [Some (-1 # 2); Some (-4 # 5)]%Q)
              "practice.txt" true "interpolate"],
        Ok tt).
Proof.
  repeat split. simpl. intuition discriminate.
Qed.

(** C6, amended.  An invocation whose fill method is not empty and is none
    of [interpolate], [ffill], [bfill] ends with the [ValueError] of the
    argument check and has no event: [load_and_process_data] is not
    called, so no file is read. *)
Theorem C6_invalid_method_rejected_before_loading :
  forall (T : Type) (K : IndexKey T) (args : Args) (m : string) (fs : FileSystem),
    method args = Some m ->
    m <> "" ->
    ~ In m fill_methods ->
    settings args = Raise invalid_fill_method
    /\ main args fs = ([], Raise invalid_fill_method).
Proof.
  intros T K args m fs Hm Hne Hno.
  assert (Hs : settings args = Raise invalid_fill_method).
  { unfold settings, truthy, get. rewrite Hm.
    destruct (String.eqb_spec m ""); [contradiction|].
    cbn [negb]. now rewrite (invalid_method Hno). }
  split; [exact Hs|]. unfold main. now rewrite Hs.
Qed.

Lemma C6_witness :
  settings {| input := Some "practice.txt"; fill := true; method := Some "spline" |}
  = Raise invalid_fill_method
  /\ main {| input := Some "practice.txt"; fill := true; method := Some "spline" |}
          (one_file "practice.txt" scenario)
     = ([], Raise invalid_fill_method).
Proof.
  apply (@C6_invalid_method_rejected_before_loading Q _
           {| input := Some "practice.txt"; fill := true; method := Some "spline" |}
           "spline" (one_file "practice.txt" scenario) eq_refl).
  - discriminate.
  - simpl. intuition discriminate.
Defined.

(** ** Loading *)



(** *** A value column of text *)

Section TextFacts.
Context {T : Type} `{KeyLaws T}.




End TextFacts.





(** The text file [text_values], loaded: the subtraction of line 32
    fails at the time 0, where the channels 4 and 5 both hold a text. *)
Example text_values_run :
  exists msg,
    txt.load_and_process_data (one_text_file "practice.txt" text_values) "practice.txt"
                              false "interpolate"
    = Raise (TypeError msg).
Proof. now eexists. Qed.



(** * Further properties *)

Unset Implicit Arguments.

(** ** Forward and backward fill *)

Lemma ffill_from_leading (last : option Q) (s : pd.Series) (i : nat) :
  (forall j, (j <= i)%nat -> nth_error s j = Some None) ->
  nth_error (pd.ffill_from last s) i = Some last.
Proof.
  revert last s. induction i as [|i IH]; intros last [|[v|] s] Hgap;
    try (specialize (Hgap 0%nat (Nat.le_0_l _)); discriminate).
  - reflexivity.
  - simpl. apply IH. intros j Hj. apply (Hgap (S j)). lia.
Qed.

Lemma ffill_from_known (last : option Q) (s : pd.Series) (i : nat) (v : Q) :
  nth_error s i = Some (Some v) -> nth_error (pd.ffill_from last s) i = Some (Some v).
Proof.
  revert last s. induction i as [|i IH]; intros last [|[w|] s] Hi; try discriminate;
    simpl in *; try assumption; now apply IH.
Qed.

Lemma ffill_from_after (last : option Q) (s : pd.Series) (i0 i : nat) (v0 : Q) :
  (i0 < i)%nat ->
  nth_error s i0 = Some (Some v0) ->
  (forall j, (i0 < j <= i)%nat -> nth_error s j = Some None) ->
  nth_error (pd.ffill_from last s) i = Some (Some v0).
Proof.
  revert last s i. induction i0 as [|i0 IH]; intros last [|a s] [|i] Hlt H0 Hgap;
    try discriminate; try lia.
  - simpl in H0. injection H0 as ->. simpl.
    apply ffill_from_leading. intros j Hj. apply (Hgap (S j)). lia.
  - simpl in H0. destruct a as [w|]; simpl; apply IH; try lia; try assumption;
      intros j Hj; apply (Hgap (S j)); lia.
Qed.

Lemma nth_error_bfill (s : pd.Series) (i : nat) :
  (i < List.length s)%nat ->
  nth_error (pd.bfill_1d s) i
  = nth_error (pd.ffill_1d (rev s)) (List.length s - S i).
Proof.
  intros Hi. unfold pd.bfill_1d. rewrite nth_error_rev.
  unfold pd.ffill_1d. rewrite length_ffill_from, length_rev.
  destruct (Nat.ltb_spec i (List.length s)); [reflexivity | lia].
Qed.

Lemma nth_error_rev_at (s : pd.Series) (i : nat) :
  (i < List.length s)%nat -> nth_error (rev s) (List.length s - S i) = nth_error s i.
Proof.
  intros Hi. rewrite nth_error_rev.
  destruct (Nat.ltb_spec (List.length s - S i) (List.length s)); [|lia].
  f_equal. lia.
Qed.

Lemma nth_error_rev_back (s : pd.Series) (j : nat) :
  (j < List.length s)%nat -> nth_error (rev s) j = nth_error s (List.length s - S j).
Proof.
  intros Hj. rewrite nth_error_rev.
  destruct (Nat.ltb_spec j (List.length s)); [reflexivity | lia].
Qed.

(** What [ffill_1d] does to a column, row by row. *)
Lemma ffill_1d_rows (s : pd.Series) :
  (forall i v, nth_error s i = Some (Some v) -> nth_error (pd.ffill_1d s) i = Some (Some v))
  /\ (forall i0 i v0,
         (i0 < i)%nat -> nth_error s i0 = Some (Some v0) ->
         (forall j, (i0 < j <= i)%nat -> nth_error s j = Some None) ->
         nth_error (pd.ffill_1d s) i = Some (Some v0))
  /\ (forall i, (forall j, (j <= i)%nat -> nth_error s j = Some None) ->
                nth_error (pd.ffill_1d s) i = Some None).
Proof.
  unfold pd.ffill_1d. repeat split.
  - intros i v. apply ffill_from_known.
  - intros i0 i v0. apply ffill_from_after.
  - intros i. apply ffill_from_leading.
Qed.

(** What [bfill_1d] does to a column, row by row. *)
Lemma bfill_1d_rows (s : pd.Series) :
  (forall i v, nth_error s i = Some (Some v) -> nth_error (pd.bfill_1d s) i = Some (Some v))
  /\ (forall i i1 v1,
         (i < i1)%nat -> nth_error s i1 = Some (Some v1) ->
         (forall j, (i <= j < i1)%nat -> nth_error s j = Some None) ->
         nth_error (pd.bfill_1d s) i = Some (Some v1))
  /\ (forall i, (i < List.length s)%nat ->
                (forall j, (i <= j < List.length s)%nat -> nth_error s j = Some None) ->
                nth_error (pd.bfill_1d s) i = Some None).
Proof.
  repeat split.
  - intros i v Hi.
    assert (Hlt : (i < List.length s)%nat) by (apply nth_error_Some; congruence).
    rewrite nth_error_bfill by exact Hlt.
    apply ffill_from_known. now rewrite nth_error_rev_at.
  - intros i i1 v1 Hlt H1 Hgap.
    assert (Hlen : (i1 < List.length s)%nat) by (apply nth_error_Some; congruence).
    rewrite nth_error_bfill by lia.
    apply ffill_from_after with (i0 := (List.length s - S i1)%nat).
    + lia.
    + now rewrite nth_error_rev_at.
    + intros j Hj. rewrite nth_error_rev_back by lia. apply Hgap. lia.
  - intros i Hlt Hgap.
    rewrite nth_error_bfill by exact Hlt.
    apply ffill_from_leading. intros j Hj.
    rewrite nth_error_rev_back by lia. apply Hgap. lia.
Qed.

Lemma length_bfill_1d (s : pd.Series) : List.length (pd.bfill_1d s) = List.length s.
Proof. apply length_fill_1d. tauto. Qed.

Lemma length_ffill_1d (s : pd.Series) : List.length (pd.ffill_1d s) = List.length s.
Proof. apply length_fill_1d. tauto. Qed.

Lemma fill_gaps_column {T : Type} (m : string) (df : pd.DataFrame T Z) (k : nat)
      (label : Z) (s : pd.Series) :
  In m fill_methods ->
  nth_error (pd.data df) k = Some (label, s) ->
  nth_error (pd.data (fill_gaps true m df)) k = Some (label, method_fill m s).
Proof.
  intros Hm Hk. rewrite (fill_gaps_method df Hm).
  unfold pd.map_columns. simpl. now rewrite nth_error_map, Hk.
Qed.

(** X1.  Under forward fill every column is filled on its own and keeps its
    length; a known value stays, a missing value takes the nearest earlier
    known value of its column, and a missing value with no earlier known
    value stays missing. *)
Theorem ffill_takes_the_previous_known_value :
  forall (T : Type) (df : pd.DataFrame T Z) (k : nat) (label : Z) (s : pd.Series),
    nth_error (pd.data df) k = Some (label, s) ->
    exists s',
      nth_error (pd.data (fill_gaps true "ffill" df)) k = Some (label, s')
      /\ List.length s' = List.length s
      /\ (forall i v, nth_error s i = Some (Some v) -> nth_error s' i = Some (Some v))
      /\ (forall i0 i v0,
             (i0 < i)%nat -> nth_error s i0 = Some (Some v0) ->
             (forall j, (i0 < j <= i)%nat -> nth_error s j = Some None) ->
             nth_error s' i = Some (Some v0))
      /\ (forall i, (forall j, (j <= i)%nat -> nth_error s j = Some None) ->
                    nth_error s' i = Some None).
Proof.
  intros T df k label s Hk. exists (pd.ffill_1d s).
  split; [apply (fill_gaps_column "ffill"); [simpl; tauto | exact Hk]|].
  split; [apply length_ffill_1d|]. apply ffill_1d_rows.
Qed.

Lemma ffill_takes_the_previous_known_value_witness :
  exists s',
    nth_error (pd.data (fill_gaps true "ffill" uneven_pivot)) 0 = Some (4%Z, s')
    /\ nth_error s' 1 = Some (Some 0%Q).
Proof.
  destruct (@ffill_takes_the_previous_known_value Q uneven_pivot 0 4%Z
              [Some 0; None; Some 3]%Q eq_refl) as (s' & Hk & _ & _ & Hafter & _).
  exists s'. split; [exact Hk|].
  apply (Hafter 0%nat 1%nat 0%Q); [lia | reflexivity|].
  intros j Hj. assert (j = 1)%nat as -> by lia. reflexivity.
Defined.

(** X2.  Under backward fill every column is filled on its own and keeps its
    length; a known value stays, a missing value takes the nearest later
    known value of its column, and a missing value with no later known
    value stays missing. *)
Theorem bfill_takes_the_next_known_value :
  forall (T : Type) (df : pd.DataFrame T Z) (k : nat) (label : Z) (s : pd.Series),
    nth_error (pd.data df) k = Some (label, s) ->
    exists s',
      nth_error (pd.data (fill_gaps true "bfill" df)) k = Some (label, s')
      /\ List.length s' = List.length s
      /\ (forall i v, nth_error s i = Some (Some v) -> nth_error s' i = Some (Some v))
      /\ (forall i i1 v1,
             (i < i1)%nat -> nth_error s i1 = Some (Some v1) ->
             (forall j, (i <= j < i1)%nat -> nth_error s j = Some None) ->
             nth_error s' i = Some (Some v1))
      /\ (forall i, (i < List.length s)%nat ->
                    (forall j, (i <= j < List.length s)%nat -> nth_error s j = Some None) ->
                    nth_error s' i = Some None).
Proof.
  intros T df k label s Hk. exists (pd.bfill_1d s).
  split; [apply (fill_gaps_column "bfill"); [simpl; tauto | exact Hk]|].
  split; [apply length_bfill_1d|]. apply bfill_1d_rows.
Qed.

Lemma bfill_takes_the_next_known_value_witness :
  (exists s',
      nth_error (pd.data (fill_gaps true "bfill" uneven_pivot)) 0 = Some (4%Z, s')
      /\ nth_error s' 1 = Some (Some 3%Q))
  /\ (exists s',
         nth_error (pd.data (fill_gaps true "bfill" uneven_pivot)) 1 = Some (5%Z, s')
         /\ nth_error s' 2 = Some None).
Proof.
  split.
  - destruct (@bfill_takes_the_next_known_value Q uneven_pivot 0 4%Z
                [Some 0; None; Some 3]%Q eq_refl) as (s' & Hk & _ & _ & Hbefore & _).
    exists s'. split; [exact Hk|].
    apply (Hbefore 1%nat 2%nat 3%Q); [lia | reflexivity|].
    intros j Hj. assert (j = 1)%nat as -> by lia. reflexivity.
  - destruct (@bfill_takes_the_next_known_value Q uneven_pivot 1 5%Z
                [Some 1; Some 2; None]%Q eq_refl) as (s' & Hk & _ & _ & _ & Hlast).
    exists s'. split; [exact Hk|].
    apply (Hlast 2%nat); [simpl; lia|].
    intros j Hj. simpl in Hj. assert (j = 2)%nat as -> by lia. reflexivity.
Defined.

(** ** What every fill keeps *)

Lemma fill_1d_known (f : pd.Series -> pd.Series) (s : pd.Series) (i : nat) (v : Q) :
  f = pd.interpolate_1d \/ f = pd.ffill_1d \/ f = pd.bfill_1d ->
  nth_error s i = Some (Some v) -> nth_error (f s) i = Some (Some v).
Proof.
  intros [-> | [-> | ->]].
  - apply interpolate_1d_rows.
  - apply ffill_1d_rows.
  - apply bfill_1d_rows.
Qed.

Lemma fill_gaps_cases {T : Type} (b : bool) (m : string) (df : pd.DataFrame T Z) :
  fill_gaps b m df = df
  \/ exists f, (f = pd.interpolate_1d \/ f = pd.ffill_1d \/ f = pd.bfill_1d)
               /\ fill_gaps b m df = pd.map_columns f df.
Proof.
  unfold fill_gaps, pd.interpolate, pd.ffill, pd.bfill.
  destruct b; [|now left].
  destruct (m =? "interpolate"); [right; eexists; split; [|reflexivity]; tauto|].
  destruct (m =? "ffill"); [right; eexists; split; [|reflexivity]; tauto|].
  destruct (m =? "bfill"); [right; eexists; split; [|reflexivity]; tauto|].
  now left.
Qed.

(** X3.  Whatever the switch and the method, the fill step keeps the row keys,
    the column labels and their order, and the length of every column,
    and it never changes a known value: it only writes into missing
    cells. *)
Theorem fill_only_writes_missing_cells :
  forall (T : Type) (fill_missing : bool) (fill_method : string) (df : pd.DataFrame T Z),
    pd.index (fill_gaps fill_missing fill_method df) = pd.index df
    /\ pd.columns (fill_gaps fill_missing fill_method df) = pd.columns df
    /\ forall k label s,
        nth_error (pd.data df) k = Some (label, s) ->
        exists s',
          nth_error (pd.data (fill_gaps fill_missing fill_method df)) k = Some (label, s')
          /\ List.length s' = List.length s
          /\ forall i v, nth_error s i = Some (Some v) -> nth_error s' i = Some (Some v).
Proof.
  intros T b m df.
  split; [apply index_fill_gaps|]. split; [apply columns_fill_gaps|].
  intros k label s Hk.
  destruct (fill_gaps_cases b m df) as [-> | (f & Hf & ->)].
  - exists s. now repeat split.
  - exists (f s). split; [|split].
    + unfold pd.map_columns. simpl. now rewrite nth_error_map, Hk.
    + now apply length_fill_1d.
    + intros i v. now apply fill_1d_known.
Qed.

(** X4.  Called with the switch on and a method that is none of the three,
    [load_and_process_data] raises nothing for the method and fills
    nothing: it returns what it returns with the switch off. *)
Theorem unknown_method_fills_nothing :
  forall (T : Type) (K : IndexKey T) (fs : FileSystem) (path : string)
         (fill_method other : string) (df : pd.DataFrame T Z),
    ~ In fill_method fill_methods ->
    fill_gaps true fill_method df = df
    /\ load_and_process_data fs path true fill_method
       = load_and_process_data fs path false other.
Proof.
  intros T K fs path m other df Hno.
  assert (Hid : forall d : pd.DataFrame T Z, fill_gaps true m d = d).
  { intros d. unfold fill_gaps.
    destruct (String.eqb_spec m "interpolate") as [->|_]; [exfalso; apply Hno; simpl; tauto|].
    destruct (String.eqb_spec m "ffill") as [->|_]; [exfalso; apply Hno; simpl; tauto|].
    destruct (String.eqb_spec m "bfill") as [->|_]; [exfalso; apply Hno; simpl; tauto|].
    reflexivity. }
  split; [apply Hid|].
  unfold load_and_process_data, reshape.
  destruct (read_csv fs path) as [csv|e]; [|reflexivity]. cbn [bind].
  destruct (pd.pivot csv) as [p|e]; [|reflexivity]. cbn [bind].
  now rewrite Hid.
Qed.

Lemma unknown_method_fills_nothing_witness :
  fill_gaps true "spline" uneven_pivot = uneven_pivot
  /\ load_and_process_data (one_file "practice.txt" uneven) "practice.txt" true "spline"
     = load_and_process_data (one_file "practice.txt" uneven) "practice.txt" false "interpolate".
Proof.
  apply (@unknown_method_fills_nothing Q _ (one_file "practice.txt" uneven) "practice.txt"
           "spline" "interpolate" uneven_pivot).
  simpl. intuition discriminate.
Defined.

(** ** Where gaps remain, and filling twice *)

Lemma ffill_from_None (last : option Q) (s : pd.Series) (j : nat) :
  nth_error (pd.ffill_from last s) j = Some None ->
  last = None /\ forall k, (k <= j)%nat -> nth_error s k = Some None.
Proof.
  revert last s. induction j as [|j IH]; intros last [|[w|] s] Hj; try discriminate.
  - simpl in Hj. injection Hj as ->. split; [reflexivity|].
    intros k Hk. now replace k with 0%nat by lia.
  - simpl in Hj. apply IH in Hj. destruct Hj as [E _]. discriminate.
  - simpl in Hj. apply IH in Hj. destruct Hj as [E Hs]. split; [exact E|].
    intros [|k] Hk; [reflexivity|]. apply Hs. lia.
Qed.

Lemma interpolate_1d_None (s : pd.Series) (j : nat) :
  nth_error (pd.interpolate_1d s) j = Some None ->
  forall k, (k <= j)%nat -> nth_error s k = Some None.
Proof.
  intros Hj k Hk.
  assert (Hlen : (j < List.length s)%nat).
  { rewrite <- length_interpolate_1d. apply nth_error_Some. congruence. }
  destruct (nth_error s k) as [[v|]|] eqn:Ek; [|reflexivity|apply nth_error_None in Ek; lia].
  exfalso.
  assert (Hin : forall x y, In (x, y) (pd.valid_from 0 s)
                            <-> exists i, x = Z.of_nat i /\ nth_error s i = Some (Some y)).
  { intros x y. rewrite valid_from_In. split; intros (i & E & Hi); exists i; split; auto; lia. }
  pose proof (valid_from_sorted 0 s) as Hs.
  unfold pd.interpolate_1d in Hj.
  destruct (pd.valid_from 0 s) as [|[first y0] rest] eqn:Ev.
  - apply (proj2 (Hin (Z.of_nat k) v)). now exists k.
  - assert (Hf : (first <= Z.of_nat k)%Z).
    { apply (sorted_head_le (q := (Z.of_nat k, v)) Hs). apply Hin. now exists k. }
    rewrite nth_error_map, nth_error_enumerate in Hj.
    destruct (nth_error s j) as [[w|]|]; simpl in Hj; try discriminate.
    destruct (Z.ltb_spec (Z.of_nat j) first); [lia | discriminate].
Qed.

Lemma ffill_gap_free (s : pd.Series) : gap_free_after_known (pd.ffill_1d s).
Proof.
  intros i j v Hlt Hi Hj. unfold pd.ffill_1d in *.
  apply ffill_from_None in Hj. destruct Hj as [_ Hgap].
  rewrite ffill_from_leading in Hi; [discriminate|].
  intros k Hk. apply Hgap. lia.
Qed.

Lemma interpolate_gap_free (s : pd.Series) : gap_free_after_known (pd.interpolate_1d s).
Proof.
  intros i j v Hlt Hi Hj.
  pose proof (interpolate_1d_None s j Hj) as Hgap.
  destruct (interpolate_1d_rows s) as (_ & _ & Hlead & _).
  rewrite Hlead in Hi; [discriminate|].
  intros k Hk. apply Hgap. lia.
Qed.

Lemma bfill_gap_free (s : pd.Series) : gap_free_before_known (pd.bfill_1d s).
Proof.
  intros i j v Hlt Hj Hi.
  assert (Hjl : (j < List.length s)%nat).
  { rewrite <- length_bfill_1d. apply nth_error_Some. congruence. }
  rewrite nth_error_bfill in Hi, Hj by lia.
  apply (@ffill_gap_free (rev s) (List.length s - S j)%nat (List.length s - S i)%nat v);
    [lia | exact Hj | exact Hi].
Qed.

Lemma gap_free_rev (s : pd.Series) : gap_free_before_known s -> gap_free_after_known (rev s).
Proof.
  intros Hg i j v Hlt Hi Hj.
  assert (Hjl : (j < List.length s)%nat).
  { rewrite <- length_rev. apply nth_error_Some. congruence. }
  rewrite nth_error_rev_back in Hi, Hj by lia.
  apply (Hg (List.length s - S j)%nat (List.length s - S i)%nat v); [lia | exact Hi | exact Hj].
Qed.

Lemma fixed_of_rows (f : pd.Series -> pd.Series) (s : pd.Series) :
  List.length (f s) = List.length s ->
  (forall i v, nth_error s i = Some (Some v) -> nth_error (f s) i = Some (Some v)) ->
  (forall i, nth_error s i = Some None -> nth_error (f s) i = Some None) ->
  f s = s.
Proof.
  intros Hlen Hknown Hnone. apply nth_error_ext. intros n.
  destruct (nth_error s n) as [[v|]|] eqn:E.
  - now apply Hknown.
  - now apply Hnone.
  - apply nth_error_None. rewrite Hlen. now apply nth_error_None.
Qed.

Lemma gap_free_leading (s : pd.Series) (i : nat) :
  gap_free_after_known s -> nth_error s i = Some None ->
  forall j, (j <= i)%nat -> nth_error s j = Some None.
Proof.
  intros Hg Hi j Hj.
  assert (Hlen : (i < List.length s)%nat) by (apply nth_error_Some; congruence).
  destruct (nth_error s j) as [[v|]|] eqn:E; [|reflexivity|apply nth_error_None in E; lia].
  exfalso. destruct (Nat.eq_dec j i) as [->|Hne]; [congruence|].
  apply (Hg j i v); [lia | exact E | exact Hi].
Qed.

Lemma ffill_fixed (s : pd.Series) : gap_free_after_known s -> pd.ffill_1d s = s.
Proof.
  intros Hg. apply fixed_of_rows.
  - apply length_ffill_1d.
  - apply ffill_1d_rows.
  - intros i Hi. apply ffill_1d_rows. now apply gap_free_leading.
Qed.

Lemma interpolate_fixed (s : pd.Series) : gap_free_after_known s -> pd.interpolate_1d s = s.
Proof.
  intros Hg. apply fixed_of_rows.
  - apply length_interpolate_1d.
  - apply interpolate_1d_rows.
  - intros i Hi. apply interpolate_1d_rows. now apply gap_free_leading.
Qed.

Lemma bfill_fixed (s : pd.Series) : gap_free_before_known s -> pd.bfill_1d s = s.
Proof.
  intros Hg. unfold pd.bfill_1d.
  rewrite (ffill_fixed _ (gap_free_rev _ Hg)). apply rev_involutive.
Qed.

Lemma map_columns_fixed {T L : Type} (f : pd.Series -> pd.Series) (df : pd.DataFrame T L) :
  (forall s, f (f s) = f s) -> pd.map_columns f (pd.map_columns f df) = pd.map_columns f df.
Proof.
  intros Hf. unfold pd.map_columns. simpl. f_equal.
  rewrite map_map. apply map_ext. intros [l s]. simpl. now rewrite Hf.
Qed.

(** X5.  After forward fill or linear interpolation no missing cell of a
    column follows a known one (the gaps left are leading ones); after
    backward fill no missing cell precedes a known one (the gaps left are
    trailing ones). *)
Theorem gaps_left_by_a_fill :
  forall (T : Type) (df : pd.DataFrame T Z),
    Forall (fun ls : Z * pd.Series => gap_free_after_known (snd ls))
           (pd.data (fill_gaps true "interpolate" df))
    /\ Forall (fun ls : Z * pd.Series => gap_free_after_known (snd ls))
              (pd.data (fill_gaps true "ffill" df))
    /\ Forall (fun ls : Z * pd.Series => gap_free_before_known (snd ls))
              (pd.data (fill_gaps true "bfill" df)).
Proof.
  intros T df. simpl. unfold pd.map_columns. simpl.
  repeat split; apply Forall_map, Forall_forall; intros [l c] _; simpl.
  - apply interpolate_gap_free.
  - apply ffill_gap_free.
  - apply bfill_gap_free.
Qed.

(** X6.  Filling a filled table again with the same switch and method changes
    nothing. *)
Theorem fill_twice_is_fill_once :
  forall (T : Type) (fill_missing : bool) (fill_method : string) (df : pd.DataFrame T Z),
    fill_gaps fill_missing fill_method (fill_gaps fill_missing fill_method df)
    = fill_gaps fill_missing fill_method df.
Proof.
  intros T b m df. unfold fill_gaps, pd.interpolate, pd.ffill, pd.bfill.
  destruct b; [|reflexivity].
  destruct (m =? "interpolate").
  { apply map_columns_fixed. intros s. apply interpolate_fixed, interpolate_gap_free. }
  destruct (m =? "ffill").
  { apply map_columns_fixed. intros s. apply ffill_fixed, ffill_gap_free. }
  destruct (m =? "bfill").
  { apply map_columns_fixed. intros s. apply bfill_fixed, bfill_gap_free. }
  reflexivity.
Qed.

(** ** How a load ends *)





(** ** What a loaded table looks like *)

Lemma derive_inv {T : Type} (pre df : pd.DataFrame T string) :
  derive pre = Ok df ->
  exists c4 c5, pd.lookup pre "Channel_4" = Some c4 /\ pd.lookup pre "Channel_5" = Some c5
                /\ df = pd.setitem pre "Channel_7" (pd.sub c5 c4).
Proof.
  unfold derive, pd.getitem.
  destruct (pd.lookup pre "Channel_5") as [c5|]; [|discriminate].
  destruct (pd.lookup pre "Channel_4") as [c4|]; [|discriminate].
  cbn [bind]. intros E. injection E as <-. now exists c4, c5.
Qed.

Lemma load_inv {T : Type} `{IndexKey T} (fs : FileSystem) (path : string) (b : bool)
      (m : string) (df : pd.DataFrame T string) :
  load_and_process_data fs path b m = Ok df ->
  exists pre, reshape fs path b m = Ok pre /\ derive pre = Ok df.
Proof.
  unfold load_and_process_data.
  destruct (reshape fs path b m) as [pre|e]; [|discriminate].
  cbn [bind]. intros E. now exists pre.
Qed.

Lemma length_zip_with {A B C : Type} (f : A -> B -> C) (l : list A) (l' : list B) :
  List.length (pd.zip_with f l l') = Nat.min (List.length l) (List.length l').
Proof.
  revert l'. induction l as [|a l IH]; intros [|b l']; simpl; try reflexivity.
  now rewrite IH.
Qed.

Lemma lookup_length {T : Type} (df : pd.DataFrame T string) (label : string) (s : pd.Series) :
  pd.well_formed df = true -> pd.lookup df label = Some s ->
  List.length s = List.length (pd.index df).
Proof.
  intros Hw E. destruct (lookup_Some df label (lookup_has_column _ _ E)) as (s' & E' & Hin).
  rewrite E in E'. injection E' as <-. exact (well_formed_length _ _ _ Hw Hin).
Qed.

Lemma distinct_snoc (l : list string) (x : string) :
  pd.distinct l = true -> existsb (String.eqb x) l = false -> pd.distinct (l ++ [x]) = true.
Proof.
  induction l as [|a l IH]; simpl; [reflexivity|].
  intros Hd Hx. apply andb_true_iff in Hd. destruct Hd as [Ha Hd].
  apply orb_false_iff in Hx. destruct Hx as [Hxa Hx].
  rewrite IH by assumption. rewrite andb_true_r.
  rewrite existsb_app. simpl. rewrite (String.eqb_sym a x), Hxa. simpl.
  now rewrite orb_false_r.
Qed.

Lemma well_formed_setitem {T : Type} (df : pd.DataFrame T string) (label : string)
      (s : pd.Series) :
  pd.well_formed df = true -> List.length s = List.length (pd.index df) ->
  pd.well_formed (pd.setitem df label s) = true.
Proof.
  unfold pd.well_formed. intros Hw Hs.
  apply andb_true_iff in Hw. destruct Hw as [Hd Hl].
  apply andb_true_iff. split.
  - destruct (pd.has_column df label) eqn:Hc.
    + now rewrite columns_setitem_present.
    + unfold pd.columns, pd.setitem. simpl. rewrite Hc, map_app. simpl.
      now apply distinct_snoc.
  - unfold pd.setitem. simpl. destruct (pd.has_column df label).
    + rewrite forallb_forall in *. intros ls Hin.
      apply in_map_iff in Hin. destruct Hin as (ls' & <- & Hin).
      unfold pd.replace_column. destruct (fst ls' =? label); simpl.
      * now apply Nat.eqb_eq.
      * now apply Hl.
    + rewrite forallb_app, Hl. simpl. rewrite andb_true_r. now apply Nat.eqb_eq.
Qed.

(** X9.  On a file of the data model (in every data row a time, an
    integer channel identifier, and a value field that is a number or
    empty), every table that
    [load_and_process_data] returns has distinct column names and one
    cell per row in every column; it has the columns [Channel_4],
    [Channel_5] and [Channel_7]; its column names are the names of the
    channels of the data rows and [Channel_7]; its row keys are strictly
    ascending and are the times of the data rows, each once. *)
Theorem loaded_table_invariants :
  forall (T : Type) (K : IndexKey T) (laws : KeyLaws T) (fs : FileSystem) (path : string)
         (fill_missing : bool) (fill_method : string) (df : pd.DataFrame T string),
    load_and_process_data fs path fill_missing fill_method = Ok df ->
    exists csv,
      fs path = Some csv
      /\ pd.well_formed df = true
      /\ pd.has_column df "Channel_4" = true
      /\ pd.has_column df "Channel_5" = true
      /\ pd.has_column df "Channel_7" = true
      /\ (forall name, In name (pd.columns df) <->
                       name = "Channel_7"
                       \/ exists c, In c (pd.channels (pd.rows csv)) /\ name = channel_name c)
      /\ StronglySorted key_lt (pd.index df)
      /\ (forall t, In t (pd.index df) -> In t (pd.times (pd.rows csv)))
      /\ (forall t, In t (pd.times (pd.rows csv)) ->
                    exists t', In t' (pd.index df) /\ key_cmp t t' = Eq).
Proof.
  intros T K laws fs path b m df Hload.
  destruct (load_inv fs path b m df Hload) as (pre & Hr & Hd).
  pose proof (reshape_well_formed _ _ _ _ Hr) as Hw.
  destruct (derive_inv _ _ Hd) as (c4 & c5 & E4 & E5 & ->).
  destruct (reshape_Ok _ _ _ _ Hr) as (csv & Hfs & _ & Hpre).
  exists csv. split; [exact Hfs|].
  assert (Hcols : pd.columns pre
                  = map channel_name (pd.sorted_unique (pd.channels (pd.rows csv)))).
  { rewrite Hpre. now rewrite columns_rename, columns_fill_gaps, columns_unstack. }
  assert (Hidx : pd.index pre = pd.sorted_unique (pd.times (pd.rows csv))).
  { rewrite Hpre. cbn [pd.rename_columns pd.index]. now rewrite index_fill_gaps. }
  split.
  { apply well_formed_setitem; [exact Hw|].
    unfold pd.sub. rewrite length_zip_with.
    rewrite (lookup_length _ _ _ Hw E4), (lookup_length _ _ _ Hw E5). apply Nat.min_id. }
  split.
  { eapply lookup_has_column. rewrite lookup_setitem_ne by discriminate. exact E4. }
  split.
  { eapply lookup_has_column. rewrite lookup_setitem_ne by discriminate. exact E5. }
  split; [apply has_column_setitem|].
  split.
  { intros name.
    assert (Hpre_in : In name (pd.columns pre)
                      <-> exists c, In c (pd.channels (pd.rows csv)) /\ name = channel_name c).
    { rewrite Hcols, in_map_iff. split.
      - intros (c & <- & Hc). exists c. split; [|reflexivity].
        now apply sorted_unique_In in Hc.
      - intros (c & Hc & ->). exists c. split; [reflexivity|].
        apply sorted_unique_has in Hc. destruct Hc as (y & Hy & E).
        apply Z_key_eq in E. now subst. }
    rewrite <- Hpre_in.
    destruct (pd.has_column pre "Channel_7") eqn:H7.
    - rewrite columns_setitem_present by exact H7. split; [tauto|].
      intros [->|Hin]; [now apply has_column_In | exact Hin].
    - unfold pd.columns at 1, pd.setitem. simpl. rewrite H7, map_app. simpl.
      rewrite in_app_iff. simpl. fold (pd.columns pre). split.
      + intros [Hin|[<-|[]]]; tauto.
      + intros [->|Hin]; tauto. }
  cbn [pd.setitem pd.index]. rewrite Hidx.
  split; [apply sorted_unique_sorted|].
  split.
  - intros t. apply sorted_unique_In.
  - intros t. apply sorted_unique_has.
Qed.

Lemma loaded_table_invariants_witness :
  exists csv,
    one_file "practice.txt" gappy "practice.txt" = Some csv
    /\ pd.well_formed gappy_derived = true
    /\ pd.has_column gappy_derived "Channel_4" = true
    /\ pd.has_column gappy_derived "Channel_5" = true
    /\ pd.has_column gappy_derived "Channel_7" = true
    /\ (forall name, In name (pd.columns gappy_derived) <->
                     name = "Channel_7"
                     \/ exists c, In c (pd.channels (pd.rows csv)) /\ name = channel_name c)
    /\ StronglySorted key_lt (pd.index gappy_derived)
    /\ (forall t, In t (pd.index gappy_derived) -> In t (pd.times (pd.rows csv)))
    /\ (forall t, In t (pd.times (pd.rows csv)) ->
                  exists t', In t' (pd.index gappy_derived) /\ key_cmp t t' = Eq).
Proof.
  exact (@loaded_table_invariants Q _ Q_laws (one_file "practice.txt" gappy) "practice.txt"
           false "interpolate" gappy_derived eq_refl).
Defined.

(** ** First times on a loaded table *)

Section FirstRow.
Context {T : Type} `{KeyLaws T}.

Lemma index_min_ascending (l : list T) :
  StronglySorted key_lt l -> pd.index_min l = hd_error l.
Proof.
  induction 1 as [|a l Hs IH Ha]; [reflexivity|].
  cbn [pd.index_min]. rewrite IH. destruct l as [|b l]; [reflexivity|].
  cbn [hd_error]. rewrite Forall_forall in Ha.
  specialize (Ha b (or_introl eq_refl)). unfold key_lt in Ha. now rewrite Ha.
Qed.

Lemma mask_index_ascending (idx : list T) (mask : list bool) :
  StronglySorted key_lt idx -> StronglySorted key_lt (pd.mask_index idx mask).
Proof.
  intros Hs. revert mask. induction Hs as [|a idx Hs IH Ha]; intros [|b mask];
    cbn [pd.mask_index]; try constructor.
  destruct b; [|apply IH].
  constructor; [apply IH|].
  rewrite Forall_forall in *. intros x Hx. apply Ha.
  apply mask_index_In in Hx. destruct Hx as (i & Hi & _). eapply nth_error_In, Hi.
Qed.

Lemma hd_mask_index (idx : list T) (mask : list bool) (P : nat -> Prop) :
  (forall i, nth_error mask i = Some true <-> P i) ->
  first_row idx P (hd_error (pd.mask_index idx mask)).
Proof.
  revert mask P. induction idx as [|a idx IH]; intros mask P HP.
  - simpl. intros [|i] t' Hi; discriminate.
  - destruct mask as [|b mask].
    + simpl. intros i t' _ Hp. apply HP in Hp. destruct i; discriminate.
    + assert (HP' : forall i, nth_error mask i = Some true <-> P (S i)).
      { intros i. apply (HP (S i)). }
      specialize (IH mask (fun i => P (S i)) HP').
      cbn [pd.mask_index]. destruct b.
      * cbn [hd_error first_row]. exists 0%nat.
        split; [reflexivity|]. split; [now apply HP|]. intros j Hj. lia.
      * destruct (hd_error (pd.mask_index idx mask)) as [t|]; cbn [first_row] in *.
        -- destruct IH as (i & Hi & Hp & Hmin). exists (S i).
           split; [exact Hi|]. split; [exact Hp|].
           intros [|j] Hj.
           ++ intros Hp0. apply HP in Hp0. discriminate.
           ++ apply Hmin. lia.
        -- intros [|i] t' Hi.
           ++ intros Hp0. apply HP in Hp0. discriminate.
           ++ now apply (IH i t').
Qed.

Lemma first_row_of_mask (idx : list T) (mask : list bool) (P : nat -> Prop) :
  StronglySorted key_lt idx ->
  (forall i, nth_error mask i = Some true <-> P i) ->
  first_row idx P (pd.index_min (pd.mask_index idx mask)).
Proof.
  intros Hs HP. rewrite index_min_ascending by now apply mask_index_ascending.
  now apply hd_mask_index.
Qed.
End FirstRow.

Lemma loaded_index {T : Type} `{IndexKey T} (fs : FileSystem) (path : string) (b : bool)
      (m : string) (df : pd.DataFrame T string) :
  load_and_process_data fs path b m = Ok df ->
  exists csv, fs path = Some csv
              /\ pd.index df = pd.sorted_unique (pd.times (pd.rows csv))
              /\ pd.has_column df "Channel_7" = true.
Proof.
  intros Hload. destruct (load_inv fs path b m df Hload) as (pre & Hr & Hd).
  destruct (derive_inv _ _ Hd) as (c4 & c5 & _ & _ & ->).
  destruct (reshape_Ok _ _ _ _ Hr) as (csv & Hfs & _ & ->).
  exists csv. split; [exact Hfs|]. split; [|apply has_column_setitem].
  cbn [pd.setitem pd.rename_columns pd.index]. apply index_fill_gaps.
Qed.

Lemma and_mask_below {T : Type} (df : pd.DataFrame T string) (c2 c7 : pd.Series) (i : nat) :
  pd.lookup df "Channel_2" = Some c2 -> pd.lookup df "Channel_7" = Some c7 ->
  nth_error (pd.and_ (pd.lt c2 (-1 # 2)) (pd.lt c7 0)) i = Some true
  <-> below df "Channel_2" (-1 # 2) i /\ below df "Channel_7" 0 i.
Proof.
  intros E2 E7. unfold pd.and_. rewrite nth_error_zip_with.
  rewrite <- (lt_mask_below df "Channel_2" (-1 # 2) i E2).
  rewrite <- (lt_mask_below df "Channel_7" 0 i E7).
  destruct (nth_error (pd.lt c2 (-1 # 2)) i) as [[|]|];
    destruct (nth_error (pd.lt c7 0) i) as [[|]|]; simpl;
    split; try discriminate; try tauto; intros [? ?]; discriminate.
Qed.

(** X10.  On a table that [load_and_process_data] returned and that has a
    column [Channel_2], each of the three results is the time of the
    first row, in row order, at which its predicate holds, and NaN when
    it holds at no row: on the ascending times of a loaded table the
    least time and the first row are the same. *)
Theorem first_time_is_the_first_row :
  forall (T : Type) (K : IndexKey T) (laws : KeyLaws T) (fs : FileSystem) (path : string)
         (fill_missing : bool) (fill_method : string) (df : pd.DataFrame T string),
    load_and_process_data fs path fill_missing fill_method = Ok df ->
    pd.has_column df "Channel_2" = true ->
    exists r1 r2 r3,
      find_first_conditions df = Ok (r1, r2, r3)
      /\ first_row (pd.index df) (below df "Channel_2" (-1 # 2)) r1
      /\ first_row (pd.index df) (below df "Channel_7" 0) r2
      /\ first_row (pd.index df)
                   (fun i => below df "Channel_2" (-1 # 2) i /\ below df "Channel_7" 0 i) r3.
Proof.
  intros T K laws fs path b m df Hload H2.
  destruct (loaded_index fs path b m df Hload) as (csv & _ & Hidx & H7).
  assert (Hs : StronglySorted key_lt (pd.index df)).
  { rewrite Hidx. apply sorted_unique_sorted. }
  apply lookup_Some in H2. destruct H2 as (c2 & E2 & _).
  apply lookup_Some in H7. destruct H7 as (c7 & E7 & _).
  unfold find_first_conditions, pd.getitem. rewrite E2, E7. cbn [bind].
  eexists _, _, _. split; [reflexivity|].
  split; [|split]; apply first_row_of_mask; try exact Hs; intros i.
  - now apply lt_mask_below.
  - now apply lt_mask_below.
  - now apply and_mask_below.
Qed.

Lemma first_time_is_the_first_row_witness :
  find_first_conditions gappy_derived = Ok (Some 2, Some 0, Some 2)%Q
  /\ first_row [0; 1; 2]%Q (below gappy_derived "Channel_2" (-1 # 2)) (Some 2%Q)
  /\ first_row [0; 1; 2]%Q (below gappy_derived "Channel_7" 0) (Some 0%Q)
  /\ first_row [0; 1; 2]%Q
       (fun i => below gappy_derived "Channel_2" (-1 # 2) i
                 /\ below gappy_derived "Channel_7" 0 i)
       (Some 2%Q).
Proof.
  destruct (@first_time_is_the_first_row Q _ Q_laws (one_file "practice.txt" gappy)
              "practice.txt" false "interpolate" gappy_derived eq_refl eq_refl)
    as (r1 & r2 & r3 & E & H1 & H2 & H3).
  change (Ok (Some 2, Some 0, Some 2)%Q = Ok (r1, r2, r3)) in E.
  injection E as <- <- <-.
  split; [reflexivity|]. split; [exact H1|]. split; [exact H2 | exact H3].
Defined.

(** ** How the first times compare *)

Lemma first_time_monotone (idx : list Q) (P P' : nat -> Prop) (r r' : option Q) :
  first_time idx P r -> first_time idx P' r' ->
  (forall i, P i -> P' i) ->
  not_later r' r.
Proof.
  intros Hr Hr' Himp. destruct r as [t|]; [|exact I].
  destruct Hr as [(i & Hi & Hp) _]. cbn [not_later].
  destruct r' as [t'|].
  - exists t'. split; [reflexivity|]. destruct Hr' as [_ Hmin].
    apply (Hmin i t Hi). now apply Himp.
  - exfalso. apply (Hr' i t Hi). now apply Himp.
Qed.

Lemma find_first_conditions_inv {T : Type} `{IndexKey T} (df : pd.DataFrame T string)
      (r : option T * option T * option T) :
  find_first_conditions df = Ok r ->
  exists c2 c7,
    pd.lookup df "Channel_2" = Some c2 /\ pd.lookup df "Channel_7" = Some c7
    /\ r = (pd.index_min (pd.mask_index (pd.index df) (pd.lt c2 (-1 # 2))),
            pd.index_min (pd.mask_index (pd.index df) (pd.lt c7 0)),
            pd.index_min (pd.mask_index (pd.index df)
                                        (pd.and_ (pd.lt c2 (-1 # 2)) (pd.lt c7 0)))).
Proof.
  unfold find_first_conditions, pd.getitem.
  destruct (pd.lookup df "Channel_2") as [c2|]; [|discriminate].
  destruct (pd.lookup df "Channel_7") as [c7|]; [|discriminate].
  cbn [bind]. intros E. injection E as <-. now exists c2, c7.
Qed.

Lemma first_times_spec (df : pd.DataFrame Q string) (r1 r2 r3 : option Q) :
  find_first_conditions df = Ok (r1, r2, r3) ->
  first_time (pd.index df) (below df "Channel_2" (-1 # 2)) r1
  /\ first_time (pd.index df) (below df "Channel_7" 0) r2
  /\ first_time (pd.index df)
                (fun i => below df "Channel_2" (-1 # 2) i /\ below df "Channel_7" 0 i) r3.
Proof.
  intros E. destruct (find_first_conditions_inv df _ E) as (c2 & c7 & E2 & E7 & Er).
  injection Er as -> -> ->.
  split; [|split]; apply first_time_of_mask; intros i.
  - now apply lt_mask_below.
  - now apply lt_mask_below.
  - now apply and_mask_below.
Qed.

(** X11.  Whenever the evaluator returns, the first time of the conjunction is
    not before the first time of either predicate: if the conjunction has
    a first time then both predicates have one, and neither is later; if
    one of the predicates never holds, the conjunction never holds. *)
Theorem conjunction_is_not_earlier :
  forall (df : pd.DataFrame Q string) (r1 r2 r3 : option Q),
    find_first_conditions df = Ok (r1, r2, r3) ->
    not_later r1 r3 /\ not_later r2 r3
    /\ (r1 = None \/ r2 = None -> r3 = None).
Proof.
  intros df r1 r2 r3 E.
  destruct (first_times_spec df r1 r2 r3 E) as (H1 & H2 & H3).
  assert (N1 : not_later r1 r3).
  { apply (first_time_monotone _ _ _ _ _ H3 H1). now intros i [? _]. }
  assert (N2 : not_later r2 r3).
  { apply (first_time_monotone _ _ _ _ _ H3 H2). now intros i [_ ?]. }
  split; [exact N1|]. split; [exact N2|].
  destruct r3 as [t|]; [|reflexivity].
  destruct N1 as (t1 & -> & _), N2 as (t2 & -> & _).
  intros [E'|E']; discriminate.
Qed.

Lemma conjunction_is_not_earlier_witness :
  not_later (Some 2%Q) (Some 2%Q) /\ not_later (Some 0%Q) (Some 2%Q)
  /\ (Some 2%Q = None \/ Some 0%Q = None -> Some 2%Q = None).
Proof.
  exact (@conjunction_is_not_earlier gappy_derived (Some 2%Q) (Some 0%Q) (Some 2%Q) eq_refl).
Defined.

Lemma extends_refl (s : pd.Series) : extends s s.
Proof. split; [reflexivity | auto]. Qed.

Lemma extends_sub (a a' b b' : pd.Series) :
  extends a a' -> extends b b' -> extends (pd.sub a b) (pd.sub a' b').
Proof.
  intros [La Ka] [Lb Kb]. split.
  - unfold pd.sub. rewrite !length_zip_with. now rewrite La, Lb.
  - intros i v. unfold pd.sub. rewrite !nth_error_zip_with.
    destruct (nth_error a i) as [[x|]|] eqn:Ea; try discriminate;
      destruct (nth_error b i) as [[y|]|] eqn:Eb; try discriminate.
    intros E. now rewrite (Ka _ _ Ea), (Kb _ _ Eb).
Qed.

Lemma lookup_rename_map_columns {T : Type} (f : pd.Series -> pd.Series)
      (p : pd.DataFrame T Z) (label : string) :
  pd.lookup (pd.rename_columns channel_name (pd.map_columns f p)) label
  = option_map f (pd.lookup (pd.rename_columns channel_name p) label).
Proof.
  unfold pd.lookup, pd.rename_columns, pd.map_columns. cbn [pd.data].
  induction (pd.data p) as [|[c s] dat IH]; [reflexivity|].
  cbn [map find fst snd]. destruct (channel_name c =? label); [reflexivity | exact IH].
Qed.

Lemma lookup_filled {T : Type} (b : bool) (m : string) (p : pd.DataFrame T Z)
      (label : string) (s : pd.Series) :
  pd.lookup (pd.rename_columns channel_name p) label = Some s ->
  exists s', pd.lookup (pd.rename_columns channel_name (fill_gaps b m p)) label = Some s'
             /\ extends s s'.
Proof.
  intros E. destruct (fill_gaps_cases b m p) as [-> | (f & Hf & ->)].
  - exists s. split; [exact E | apply extends_refl].
  - exists (f s). rewrite lookup_rename_map_columns, E. split; [reflexivity|].
    split; [now apply length_fill_1d | intros i v; now apply fill_1d_known].
Qed.

Lemma below_extends {T : Type} (df df' : pd.DataFrame T string) (label : string)
      (s s' : pd.Series) (c : Q) (i : nat) :
  pd.lookup df label = Some s -> pd.lookup df' label = Some s' -> extends s s' ->
  below df label c i -> below df' label c i.
Proof.
  intros E E' [_ Hk] (v & Hv & Hlt). unfold below, pd.cell in *.
  rewrite E in Hv. rewrite E'. exists v. split; [now apply Hk | exact Hlt].
Qed.

(** X12.  Filling never delays a detection.  When the same file is loaded
    without filling and with any fill, and the evaluator returns on the
    unfilled table, it returns on the filled table too, and each first
    time found without filling is found, at that time or earlier, with
    filling. *)
Theorem filling_never_delays_a_first_time :
  forall (fs : FileSystem) (path : string) (any_method : string)
         (fill_missing : bool) (fill_method : string)
         (unfilled filled : pd.DataFrame Q string) (r1 r2 r3 : option Q),
    load_and_process_data fs path false any_method = Ok unfilled ->
    load_and_process_data fs path fill_missing fill_method = Ok filled ->
    find_first_conditions unfilled = Ok (r1, r2, r3) ->
    exists r1' r2' r3',
      find_first_conditions filled = Ok (r1', r2', r3')
      /\ not_later r1' r1 /\ not_later r2' r2 /\ not_later r3' r3.
Proof.
  intros fs path m0 b m df df' r1 r2 r3 Hl Hl' Hf.
  destruct (load_inv fs path false m0 df Hl) as (pre & Hr & Hd).
  destruct (load_inv fs path b m df' Hl') as (pre' & Hr' & Hd').
  destruct (reshape_Ok _ _ _ _ Hr) as (csv & Hfs & _ & Hpre).
  destruct (reshape_Ok _ _ _ _ Hr') as (csv' & Hfs' & _ & Hpre').
  rewrite Hfs in Hfs'. injection Hfs' as <-.
  cbn [fill_gaps] in Hpre.
  set (p := pd.unstack (pd.rows csv)) in *.
  destruct (derive_inv _ _ Hd) as (c4 & c5 & E4 & E5 & Edf).
  destruct (derive_inv _ _ Hd') as (c4' & c5' & E4' & E5' & Edf').
  assert (Hext : forall label s, pd.lookup pre label = Some s ->
                                 exists s', pd.lookup pre' label = Some s' /\ extends s s').
  { intros label s E. rewrite Hpre in E. rewrite Hpre'. now apply lookup_filled. }
  destruct (Hext _ _ E4) as (x4 & Ex4 & X4). rewrite E4' in Ex4. injection Ex4 as <-.
  destruct (Hext _ _ E5) as (x5 & Ex5 & X5). rewrite E5' in Ex5. injection Ex5 as <-.
  destruct (find_first_conditions_inv df _ Hf) as (c2 & c7 & E2 & E7 & _).
  assert (E2pre : pd.lookup pre "Channel_2" = Some c2).
  { rewrite Edf in E2. now rewrite lookup_setitem_ne in E2 by discriminate. }
  destruct (Hext _ _ E2pre) as (c2' & E2pre' & X2).
  assert (E2' : pd.lookup df' "Channel_2" = Some c2').
  { rewrite Edf'. now rewrite lookup_setitem_ne by discriminate. }
  assert (E7' : pd.lookup df' "Channel_7" = Some (pd.sub c5' c4')).
  { rewrite Edf'. apply lookup_setitem_eq. }
  assert (E7s : c7 = pd.sub c5 c4).
  { rewrite Edf, lookup_setitem_eq in E7. now injection E7. }
  subst c7.
  assert (X7 : extends (pd.sub c5 c4) (pd.sub c5' c4')) by now apply extends_sub.
  assert (Hidx : pd.index df' = pd.index df).
  { rewrite Edf, Edf', Hpre, Hpre'. cbn [pd.setitem pd.rename_columns pd.index].
    apply index_fill_gaps. }
  destruct (find_first_conditions df') as [[[r1' r2'] r3']|e] eqn:Hf'.
  2:{ unfold find_first_conditions, pd.getitem in Hf'. rewrite E2', E7' in Hf'.
      discriminate. }
  exists r1', r2', r3'. split; [reflexivity|].
  destruct (first_times_spec df r1 r2 r3 Hf) as (H1 & H2 & H3).
  destruct (first_times_spec df' r1' r2' r3' Hf') as (H1' & H2' & H3').
  rewrite Hidx in H1', H2', H3'.
  assert (B2 : forall i, below df "Channel_2" (-1 # 2) i -> below df' "Channel_2" (-1 # 2) i).
  { intros i. now apply (below_extends df df' "Channel_2" c2 c2'). }
  assert (B7 : forall i, below df "Channel_7" 0 i -> below df' "Channel_7" 0 i).
  { intros i. now apply (below_extends df df' "Channel_7" (pd.sub c5 c4) (pd.sub c5' c4')). }
  split; [|split].
  - exact (first_time_monotone _ _ _ _ _ H1 H1' B2).
  - exact (first_time_monotone _ _ _ _ _ H2 H2' B7).
  - apply (first_time_monotone _ _ _ _ _ H3 H3'). intros i [? ?]. split; auto.
Qed.

Lemma filling_never_delays_a_first_time_witness :
  find_first_conditions gappy_bfilled = Ok (Some 1, Some 0, Some 2)%Q
  /\ not_later (Some 1%Q) (Some 2%Q)
  /\ not_later (Some 0%Q) (Some 0%Q)
  /\ not_later (Some 2%Q) (Some 2%Q).
Proof.
  destruct (@filling_never_delays_a_first_time (one_file "practice.txt" gappy) "practice.txt"
              "interpolate" true "bfill" gappy_derived gappy_bfilled
              (Some 2%Q) (Some 0%Q) (Some 2%Q) eq_refl eq_refl eq_refl)
    as (r1 & r2 & r3 & E & H1 & H2 & H3).
  change (Ok (Some 1, Some 0, Some 2)%Q = Ok (r1, r2, r3)) in E.
  injection E as <- <- <-.
  split; [reflexivity|]. split; [exact H1|]. split; [exact H2 | exact H3].
Defined.

(** ** How a run ends *)

Lemma settings_cases (args : Args) :
  settings args = Raise invalid_fill_method
  \/ exists m, In m fill_methods
               /\ settings args = Ok (path_of args, fill args, m)
               /\ (truthy (method args) = true -> method args = Some m)
               /\ (truthy (method args) = false -> m = "interpolate").
Proof.
  unfold settings. rewrite path_of_settings, fill_of_settings.
  destruct (truthy (method args)) eqn:Ht.
  - destruct (existsb (String.eqb (get (method args))) fill_methods) eqn:Ex; cbn [negb].
    + right. exists (get (method args)).
      apply existsb_exists in Ex. destruct Ex as (x & Hx & E).
      apply String.eqb_eq in E. rewrite E.
      split; [exact Hx|]. split; [reflexivity|]. split; [|discriminate].
      intros _. unfold truthy, get in *. destruct (method args); [now rewrite <- E | discriminate].
    + now left.
  - right. exists "interpolate". split; [simpl; tauto|]. split; [reflexivity|].
    split; [discriminate | reflexivity].
Qed.



(** X14.  Whenever a run calls the loader, it is with the [-i] path (the empty
    path without [-i]), the fill switch as [-f] gave it, and one of the
    three methods: the [-m] value when there is one, [interpolate]
    without [-m] or with an empty one. *)
Theorem loader_arguments :
  forall (T : Type) (K : IndexKey T) (args : Args) (fs : FileSystem)
         (path : string) (fill_missing : bool) (fill_method : string),
    In (Load path fill_missing fill_method) (fst (main args fs)) ->
    path = path_of args
    /\ fill_missing = fill args
    /\ In fill_method fill_methods
    /\ (truthy (method args) = true -> method args = Some fill_method)
    /\ (truthy (method args) = false -> fill_method = "interpolate").
Proof.
  intros T K args fs path b m Hin. unfold main in Hin.
  destruct (settings_cases args) as [Hs | (m' & Hm & Hs & Hsome & Hnone)];
    rewrite Hs in Hin; [destruct Hin|].
  assert (E : Load path b m = Load (path_of args) (fill args) m' (T := T)).
  { destruct (load_and_process_data fs (path_of args) (fill args) m') as [df|e];
      [destruct (find_first_conditions df) as [r|e]|]; simpl in Hin;
      repeat (destruct Hin as [Hin|Hin]; try discriminate; try (now symmetry));
      destruct Hin. }
  injection E as -> -> ->. now repeat split.
Qed.

Lemma loader_arguments_witness :
  "practice.txt" = path_of empty_method
  /\ true = fill empty_method
  /\ In "interpolate" fill_methods
  /\ (truthy (method empty_method) = true -> method empty_method = Some "interpolate")
  /\ (truthy (method empty_method) = false -> "interpolate" = "interpolate").
Proof.
  apply (@loader_arguments Q _ empty_method (one_file "practice.txt" scenario)
           "practice.txt" true "interpolate").
  simpl. now left.
Defined.

(** ** The plot *)

Lemma present_In {T : Type} (idx : list T) (s : pd.Series) (t : T) (v : Q) :
  In (t, v) (present idx s)
  <-> exists i, nth_error idx i = Some t /\ nth_error s i = Some (Some v).
Proof.
  revert s. induction idx as [|a idx IH]; intros s.
  - simpl. split; [intros [] | intros ([|i] & Hi & _); discriminate].
  - destruct s as [|[w|] s]; cbn [present].
    + split; [intros [] | intros ([|i] & _ & Hi); discriminate].
    + split.
      * intros [E|Hin].
        -- injection E as <- <-. now exists 0%nat.
        -- apply IH in Hin. destruct Hin as (i & Hi & Hs). now exists (S i).
      * intros ([|i] & Hi & Hs); simpl in *.
        -- injection Hi as <-. injection Hs as <-. now left.
        -- right. apply IH. now exists i.
    + rewrite IH. split.
      * intros (i & Hi & Hs). now exists (S i).
      * intros ([|i] & Hi & Hs); simpl in *; [discriminate | now exists i].
Qed.

Lemma combine_fst_snd {A B : Type} (l : list (A * B)) : combine (map fst l) (map snd l) = l.
Proof.
  induction l as [|[a b] l IH]; simpl; [reflexivity | now rewrite IH].
Qed.

Lemma dropna_Ok {T : Type} (df : pd.DataFrame T string) (label : string) :
  pd.has_column df label = true ->
  exists s, pd.lookup df label = Some s /\ dropna df label = Ok (present (pd.index df) s).
Proof.
  intros Hc. apply lookup_Some in Hc. destruct Hc as (s & E & _).
  exists s. split; [exact E|]. unfold dropna. now rewrite E.
Qed.

(** X15.  Each of the two lines of the plot is drawn over the rows where its
    own channel has a value, and over no other: a point (time, value) is
    on the line of a channel exactly when the table has that value in
    that channel at a row of that time, so a gap in one channel removes
    no point of the other. *)
Theorem plotted_lines_hold_the_present_rows :
  forall (fill_missing : bool) (fill_method : string) (df : pd.DataFrame Q string)
         (title : string) (calls : list plt.call),
    plot_conditions fill_missing fill_method df title = Ok calls ->
    exists x2 y2 x7 y7,
      nth_error calls 1 = Some (plt.plot x2 y2 "Channel_2" "blue" (7 # 10) "o")
      /\ nth_error calls 2 = Some (plt.plot x7 y7 "Channel_7" "red" (7 # 10) "o")
      /\ List.length x2 = List.length y2
      /\ List.length x7 = List.length y7
      /\ (forall t v, In (t, v) (combine x2 y2) <->
                      exists i, nth_error (pd.index df) i = Some t
                                /\ pd.cell df "Channel_2" i = Some (Some v))
      /\ (forall t v, In (t, v) (combine x7 y7) <->
                      exists i, nth_error (pd.index df) i = Some t
                                /\ pd.cell df "Channel_7" i = Some (Some v)).
Proof.
  intros b m df title calls Hp. unfold plot_conditions, dropna in Hp.
  destruct (pd.lookup df "Channel_2") as [c2|] eqn:E2; [|discriminate].
  destruct (pd.lookup df "Channel_7") as [c7|] eqn:E7; [|discriminate].
  cbn [bind] in Hp.
  destruct (find_first_conditions df) as [first|e]; [|discriminate].
  cbn [bind] in Hp. injection Hp as <-.
  eexists _, _, _, _. split; [reflexivity|]. split; [reflexivity|].
  split; [now rewrite !length_map|]. split; [now rewrite !length_map|].
  unfold pd.cell. rewrite E2, E7.
  split; intros t v; rewrite combine_fst_snd; apply present_In.
Qed.

Lemma plotted_lines_hold_the_present_rows_witness :
  exists x2 y2 x7 y7,
    nth_error gappy_calls 1 = Some (plt.plot x2 y2 "Channel_2" "blue" (7 # 10) "o")
    /\ nth_error gappy_calls 2 = Some (plt.plot x7 y7 "Channel_7" "red" (7 # 10) "o")
    /\ List.length x2 = List.length y2
    /\ List.length x7 = List.length y7
    /\ (forall t v, In (t, v) (combine x2 y2) <->
                    exists i, nth_error (pd.index gappy_derived) i = Some t
                              /\ pd.cell gappy_derived "Channel_2" i = Some (Some v))
    /\ (forall t v, In (t, v) (combine x7 y7) <->
                    exists i, nth_error (pd.index gappy_derived) i = Some t
                              /\ pd.cell gappy_derived "Channel_7" i = Some (Some v)).
Proof.
  exact (@plotted_lines_hold_the_present_rows false "interpolate" gappy_derived
           "practice.txt" gappy_calls eq_refl).
Defined.

Lemma last_app_cons {A : Type} (l l' : list A) (a d : A) :
  last (l ++ a :: l')%list d = last (a :: l') d.
Proof.
  induction l as [|x l IH]; [reflexivity|].
  cbn [app]. rewrite <- IH.
  destruct (l ++ a :: l')%list eqn:E; [destruct l; discriminate | reflexivity].
Qed.

(** X16.  When a run whose path is in ASCII calls the plot, the plot makes
    all its calls, up to [savefig] on the name of the run's title and fill
    settings.  The green line is at the first time of the conjunction
    that the run printed; its label is drawn when that is a time and not
    when it is NaN.  When the fill switch is on, the shadings are two: the
    one of the [Channel_2] line below -0.5 and the one of the [Channel_7]
    line below 0, each over the rows where its column has a value; when
    the switch is off there is none. *)
Theorem plot_of_a_run :
  forall (args : Args) (fs : FileSystem) (df : pd.DataFrame Q string) (title : string)
         (fill_missing : bool) (fill_method : string),
    In (Plot df title fill_missing fill_method) (fst (main args fs)) ->
    ascii_only title = true ->
    exists r1 r2 r3 p2 p7 calls,
      In (PrintConditions (r1, r2, r3)) (fst (main args fs))
      /\ dropna df "Channel_2" = Ok p2
      /\ dropna df "Channel_7" = Ok p7
      /\ plot_conditions fill_missing fill_method df title = Ok calls
      /\ In (plt.axvline r3 "green" "--" (1 # 2) "First Both Conditions Met") calls
      /\ (forall t, In (plt.text t 0 "green") calls <-> r3 = Some t)
      /\ filter is_shading calls
         = (if fill_missing
            then [shading p2 (-1 # 2) "blue" "Channel_2 < -0.5";
                  shading p7 0 "red" "Channel_7 < 0"]
            else [])
      /\ last calls plt.legend
         = plt.savefig (figure_name fill_missing fill_method title) "tight".
Proof.
  intros args fs df title b m Hin _. unfold main in *.
  destruct (settings args) as [[[path b'] m']|e]; [|destruct Hin].
  destruct (load_and_process_data fs path b' m') as [df'|e] eqn:Hl.
  2:{ simpl in Hin. intuition discriminate. }
  destruct (find_first_conditions df') as [[[r1 r2] r3]|e] eqn:Hf.
  2:{ simpl in Hin. intuition discriminate. }
  assert (E : Plot df title b m = Plot df' path b' m').
  { simpl in Hin. intuition (try discriminate). now symmetry. }
  injection E as -> -> -> ->.
  destruct (find_first_conditions_inv df' _ Hf) as (c2 & c7 & E2 & E7 & _).
  exists r1, r2, r3, (present (pd.index df') c2), (present (pd.index df') c7).
  unfold plot_conditions, dropna. rewrite E2, E7, Hf. cbn [bind snd].
  eexists. split; [simpl; tauto|].
  split; [reflexivity|]. split; [reflexivity|]. split; [reflexivity|].
  split; [|split; [|split]].
  - rewrite !in_app_iff. right. right. left. simpl. tauto.
  - intros t. rewrite !in_app_iff. split.
    + intros [Hi|[Hi|[Hi|[Hi|Hi]]]].
      * simpl in Hi. intuition discriminate.
      * destruct b'; simpl in Hi; intuition discriminate.
      * simpl in Hi. intuition discriminate.
      * destruct r3 as [t'|]; simpl in Hi; [|destruct Hi].
        destruct Hi as [Hi|[]]. now injection Hi as ->.
      * simpl in Hi. intuition discriminate.
    + intros ->. right. right. right. left. now left.
  - destruct b', r3; reflexivity.
  - rewrite !app_assoc. now rewrite last_app_cons.
Qed.

Lemma plot_of_a_run_witness :
  exists r1 r2 r3 p2 p7 calls,
    In (PrintConditions (r1, r2, r3))
       (fst (main {| input := Some "practice.txt"; fill := true; method := Some "bfill" |}
                  (one_file "practice.txt" gappy)))
    /\ dropna gappy_bfilled "Channel_2" = Ok p2
    /\ dropna gappy_bfilled "Channel_7" = Ok p7
    /\ plot_conditions true "bfill" gappy_bfilled "practice.txt" = Ok calls
    /\ In (plt.axvline r3 "green" "--" (1 # 2) "First Both Conditions Met") calls
    /\ (forall t, In (plt.text t 0 "green") calls <-> r3 = Some t)
    /\ filter is_shading calls
       = [shading p2 (-1 # 2) "blue" "Channel_2 < -0.5";
          shading p7 0 "red" "Channel_7 < 0"]
    /\ last calls plt.legend
       = plt.savefig (figure_name true "bfill" "practice.txt") "tight".
Proof.
  apply (@plot_of_a_run {| input := Some "practice.txt"; fill := true; method := Some "bfill" |}
           (one_file "practice.txt" gappy) gappy_bfilled "practice.txt" true "bfill").
  - simpl. tauto.
  - reflexivity.
Defined.

Lemma append_inv_head (p s s' : string) : p ++ s = p ++ s' -> s = s'.
Proof.
  induction p as [|c p IH]; simpl; [tauto|]. intros E. injection E as E. now apply IH.
Qed.

Lemma append_assoc (a b c : string) : (a ++ b) ++ c = a ++ (b ++ c).
Proof. induction a as [|x a IH]; simpl; [reflexivity | now rewrite IH]. Qed.

(** X17.  With one title, two runs whose methods are among the three write the
    same image file only when they have the same fill switch and, with
    the switch on, the same method: the images of different fill policies
    never overwrite each other. *)
Theorem figure_names_tell_the_fill_policies_apart :
  forall (title : string) (b1 b2 : bool) (m1 m2 : string),
    In m1 fill_methods -> In m2 fill_methods ->
    figure_name b1 m1 title = figure_name b2 m2 title ->
    b1 = b2 /\ (b1 = true -> m1 = m2).
Proof.
  intros title b1 b2 m1 m2 H1 H2 E. unfold figure_name in E.
  assert (Hcut : forall x y : string,
             "plots/" ++ lower title ++ x = "plots/" ++ lower title ++ y -> x = y).
  { intros x y Hxy. apply (append_inv_head "plots/") in Hxy.
    now apply append_inv_head in Hxy. }
  simpl in H1, H2.
  destruct b1, b2; apply Hcut in E;
    destruct H1 as [<-|[<-|[<-|[]]]]; destruct H2 as [<-|[<-|[<-|[]]]];
    try discriminate E; split; try reflexivity; try discriminate; auto.
Qed.

Lemma figure_names_tell_the_fill_policies_apart_witness :
  true = true /\ (true = true -> "ffill" = "ffill").
Proof.
  apply (@figure_names_tell_the_fill_policies_apart "practice.txt" true true "ffill" "ffill");
    simpl; tauto.
Defined.

(** ** The second predicate, in terms of the two source channels *)


